(** * Streaming chat session of the dashboard client

    A shallow embedding of the socket-driven chat session that lives in
    [src/components/ChatComponent.tsx] and in
    [src/components/projects/Chat.tsx].  The two files carry near copies
    of the same logic; each gets a module of its own ([ChatComponent] and
    [Chat]) whose definitions follow the functions of that file, and the
    types, hooks and browser primitives both files share come first.

    Conventions of the embedding:
    - React state ([useState]) and refs ([useRef]) are the fields of one
      [State] record that every handler takes and returns; a handler runs
      to completion and its state updates apply in program order.
    - [wsRef.current] is an index into [sockets], the store of every
      [WebSocket] object the component has constructed, so that a socket
      that is no longer referenced keeps its own [readyState] and can
      still deliver events to the handlers installed on it.
    - A string is a sequence of code units below 256.
    - The parsed inbound frame is a record of the four properties the
      handler inspects, each a string when present. *)

From Stdlib Require Import ZArith String Ascii List Lia DecimalString DecimalNat Sorted.
From stdpp Require Import base list strings gmap.

(** ** JavaScript string primitives used by the components *)

Module Js.

(** White space and line terminators removed by [String.prototype.trim]
    (the ones that fit a code unit below 256): TAB, LF, VT, FF, CR, SP
    and NBSP. *)
Definition isWhiteSpace (c : ascii) : bool :=
  match nat_of_ascii c with
  | 9 | 10 | 11 | 12 | 13 | 32 | 160 => true
  | _ => false
  end.

Fixpoint trimStart (s : string) : string :=
  match s with
  | EmptyString => EmptyString
  | String c s' => if isWhiteSpace c then trimStart s' else s
  end.

Fixpoint trimEnd (s : string) : string :=
  match s with
  | EmptyString => EmptyString
  | String c s' =>
      match trimEnd s' with
      | EmptyString => if isWhiteSpace c then EmptyString else String c EmptyString
      | t => String c t
      end
  end.

Definition trim (s : string) : string := trimEnd (trimStart s).

(** Truthiness of a string value: only the empty string is falsy. *)
Definition truthy (s : string) : bool := negb (String.eqb s "").

(** Truthiness of a possibly [undefined] string property. *)
Definition truthy_opt (o : option string) : bool :=
  match o with
  | Some s => truthy s
  | None => false
  end.

(** [a || b] on a possibly [undefined] string [a]. *)
Definition or_else (a : option string) (b : string) : string :=
  match a with
  | Some s => if truthy s then s else b
  | None => b
  end.

Definition startsWith (s pat : string) : bool := String.prefix pat s.

Fixpoint drop (n : nat) (s : string) : string :=
  match n, s with
  | O, _ => s
  | S n', String _ s' => drop n' s'
  | S _, EmptyString => EmptyString
  end.

(** [s.replace(pat, rep)] with a string pattern: the first occurrence
    only ([rep] holds no [$] in the callers). *)
Fixpoint replace (s pat rep : string) : string :=
  if String.prefix pat s then rep +:+ drop (String.length pat) s
  else match s with
       | EmptyString => EmptyString
       | String c s' => String c (replace s' pat rep)
       end.

(** A template-literal hole [${v}] for a possibly [undefined] string. *)
Definition interpolate (o : option string) : string :=
  match o with
  | Some s => s
  | None => "undefined"
  end.

End Js.

(** ** Data model shared by both files *)

(** [InternalMessage['type']] *)
Inductive MessageType := Tquery | Tchunk | Tresponse | Terror | Tsystem.

(** [interface InternalMessage]; [isComplete?: boolean] is [None] when
    the property is absent. *)
Record InternalMessage := mkMessage {
  type : MessageType;
  content : string;
  isComplete : option bool
}.

(** The object [JSON.parse(event.data)] as the message handler reads it:
    [data.type], [data.data], [data.message], [data.error]. *)
Record InboundFrame := mkFrame {
  ftype : option string;
  fdata : string;
  fmessage : option string;
  ferror : option string
}.

(** The three shapes handed to [JSON.stringify] and [send]. *)
Inductive OutboundFrame :=
| QueryFrame (query sessionId : string)   (* { query, sessionId } *)
| CancelTypeFrame (sessionId : string)    (* { type: 'cancel', sessionId } *)
| CancelFlagFrame (sessionId : string).   (* { cancel: true, sessionId } *)

Inductive ReadyState := CONNECTING | OPEN | CLOSING | CLOSED.

Record WebSocket := mkWebSocket {
  url : string;
  readyState : ReadyState;
  sent : list OutboundFrame
}.

(** [window.location.protocol] and the two [import.meta.env] variables. *)
Record Env := mkEnv {
  location_protocol : string;
  VITE_WEB_SOCKET_URL : option string;
  VITE_API_HOST : option string
}.

(** The hooks of the component that the session logic touches, the
    socket store, and the number of reconnect callbacks handed to
    [setTimeout] that have not run yet. *)
Record State := mkState {
  connected : bool;
  chatMessages : list InternalMessage;
  query : string;
  isStreaming : bool;
  isWaitingForResponse : bool;
  sessionId : string;
  wsRef : option nat;
  currentResponseIndexRef : Z;
  sockets : list WebSocket;
  timers : nat
}.

Definition setConnected (b : bool) (s : State) : State :=
  mkState b (chatMessages s) (query s) (isStreaming s) (isWaitingForResponse s)
          (sessionId s) (wsRef s) (currentResponseIndexRef s) (sockets s) (timers s).

Definition setChatMessages (l : list InternalMessage) (s : State) : State :=
  mkState (connected s) l (query s) (isStreaming s) (isWaitingForResponse s)
          (sessionId s) (wsRef s) (currentResponseIndexRef s) (sockets s) (timers s).

Definition setQuery (q : string) (s : State) : State :=
  mkState (connected s) (chatMessages s) q (isStreaming s) (isWaitingForResponse s)
          (sessionId s) (wsRef s) (currentResponseIndexRef s) (sockets s) (timers s).

Definition setIsStreaming (b : bool) (s : State) : State :=
  mkState (connected s) (chatMessages s) (query s) b (isWaitingForResponse s)
          (sessionId s) (wsRef s) (currentResponseIndexRef s) (sockets s) (timers s).

Definition setIsWaitingForResponse (b : bool) (s : State) : State :=
  mkState (connected s) (chatMessages s) (query s) (isStreaming s) b
          (sessionId s) (wsRef s) (currentResponseIndexRef s) (sockets s) (timers s).

Definition set_sessionId (id : string) (s : State) : State :=
  mkState (connected s) (chatMessages s) (query s) (isStreaming s) (isWaitingForResponse s)
          id (wsRef s) (currentResponseIndexRef s) (sockets s) (timers s).

Definition set_wsRef (r : option nat) (s : State) : State :=
  mkState (connected s) (chatMessages s) (query s) (isStreaming s) (isWaitingForResponse s)
          (sessionId s) r (currentResponseIndexRef s) (sockets s) (timers s).

Definition set_currentResponseIndexRef (i : Z) (s : State) : State :=
  mkState (connected s) (chatMessages s) (query s) (isStreaming s) (isWaitingForResponse s)
          (sessionId s) (wsRef s) i (sockets s) (timers s).

Definition set_sockets (l : list WebSocket) (s : State) : State :=
  mkState (connected s) (chatMessages s) (query s) (isStreaming s) (isWaitingForResponse s)
          (sessionId s) (wsRef s) (currentResponseIndexRef s) l (timers s).

Definition set_timers (n : nat) (s : State) : State :=
  mkState (connected s) (chatMessages s) (query s) (isStreaming s) (isWaitingForResponse s)
          (sessionId s) (wsRef s) (currentResponseIndexRef s) (sockets s) n.

(** State of a freshly mounted component: [useState] and [useRef]
    initial values, no socket yet. *)
Definition initial (sid : string) : State :=
  mkState false [] "" false false sid None (-1)%Z [] 0.

(** ** Browser primitives on the socket store *)

Definition set_readyState (r : ReadyState) (w : WebSocket) : WebSocket :=
  mkWebSocket (url w) r (sent w).

(** [ws.close()]: a socket that is connecting or open starts closing;
    the close event itself comes later. *)
Definition ws_close (w : WebSocket) : WebSocket :=
  match readyState w with
  | CONNECTING | OPEN => set_readyState CLOSING w
  | CLOSING | CLOSED => w
  end.

(** [ws.send(frame)]: queued on an open socket, dropped by one that is
    closing or closed (the callers never send while connecting). *)
Definition ws_send (f : OutboundFrame) (w : WebSocket) : WebSocket :=
  match readyState w with
  | OPEN => mkWebSocket (url w) (readyState w) (sent w ++ [f])
  | _ => w
  end.

Definition readyState_eqb (a b : ReadyState) : bool :=
  match a, b with
  | CONNECTING, CONNECTING | OPEN, OPEN | CLOSING, CLOSING | CLOSED, CLOSED => true
  | _, _ => false
  end.

(** The socket behind [wsRef.current], when there is one. *)
Definition current_socket (s : State) : option WebSocket :=
  match wsRef s with
  | Some i => sockets s !! i
  | None => None
  end.

(** [wsRef.current?.readyState === r] *)
Definition current_readyState_is (r : ReadyState) (s : State) : bool :=
  match current_socket s with
  | Some w => readyState_eqb (readyState w) r
  | None => false
  end.

(** Apply [f] to the socket behind [wsRef.current]. *)
Definition with_current_socket (f : WebSocket -> WebSocket) (s : State) : State :=
  match wsRef s with
  | Some i => set_sockets (alter f i (sockets s)) s
  | None => s
  end.

(** [new WebSocket(wsUrl)] followed by [wsRef.current = ws]. *)
Definition open_socket (wsUrl : string) (s : State) : State :=
  set_wsRef (Some (length (sockets s)))
            (set_sockets (sockets s ++ [mkWebSocket wsUrl CONNECTING []]) s).

(** [addMessage(type, content)], with [isComplete] at its default. *)
Definition addMessage (t : MessageType) (c : string) (s : State) : State :=
  setChatMessages (chatMessages s ++ [mkMessage t c (Some true)]) s.

(** [0 <= i && i < prev.length] on the in-progress index. *)
Definition index_in_range (i : Z) (prev : list InternalMessage) : bool :=
  ((0 <=? i)%Z && (i <? Z.of_nat (length prev))%Z)%bool.

(** The turn the in-progress index resolves to, if any. *)
Definition current_turn (s : State) : option InternalMessage :=
  if index_in_range (currentResponseIndexRef s) (chatMessages s)
  then chatMessages s !! Z.to_nat (currentResponseIndexRef s)
  else None.

(** Turns shown as user or assistant bubbles ([messages], derived from
    [chatMessages] by the conversion effect). *)
Definition displayed (m : InternalMessage) : bool :=
  match type m with
  | Tquery | Tchunk | Tresponse => true
  | Terror | Tsystem => false
  end.

Definition is_assistant (m : InternalMessage) : bool :=
  match type m with
  | Tchunk | Tresponse => true
  | _ => false
  end.

(** What the user, the browser and the timer queue can do to a mounted
    component. *)
Inductive Event :=
| Mount                                  (* effect on mount: connect() *)
| Unmount                                (* its cleanup: disconnect() *)
| InputChange (q : string)               (* onChange of the message input *)
| Submit                                 (* onSubmit of the form *)
| SuggestionClick (suggestion : string)  (* onClick of a suggestion card *)
| CancelClick                            (* onClick of the cancel button *)
| NewSessionClick (newId : string)       (* confirm "Start New Chat" *)
| SocketOpen (i : nat)
| SocketMessage (i : nat) (data : InboundFrame)
| SocketError (i : nat)
| SocketClose (i : nat)
| TimerFire.                             (* a 3000 ms reconnect timer elapses *)

(** Browser side of a socket event: which sockets can fire it. *)
Definition socket_in (r : ReadyState) (i : nat) (s : State) : bool :=
  match sockets s !! i with
  | Some w => readyState_eqb (readyState w) r
  | None => false
  end.

Definition socket_live (i : nat) (s : State) : bool :=
  match sockets s !! i with
  | Some w => negb (readyState_eqb (readyState w) CLOSED)
  | None => false
  end.

Definition mark_socket (r : ReadyState) (i : nat) (s : State) : State :=
  set_sockets (alter (set_readyState r) i (sockets s)) s.

(** [data.type === t] *)
Definition type_is (t : string) (data : InboundFrame) : bool :=
  match ftype data with
  | Some x => String.eqb x t
  | None => false
  end.

(** A chunk frame, and the text obtained by joining fragment payloads
    in the order given. *)
Definition is_chunk (data : InboundFrame) : Prop := ftype data = Some "chunk".

Definition concat_all (l : list string) : string := foldr String.append "" l.

(** The welcome screen with the suggestion cards is rendered when the
    component is connected and no user or assistant bubble is shown. *)
Definition suggestions_shown (s : State) : bool :=
  (connected s && forallb (fun m => negb (displayed m)) (chatMessages s))%bool.

(** The cancel button is rendered while waiting or streaming and is
    disabled while not connected. *)
Definition cancel_enabled (s : State) : bool :=
  ((isWaitingForResponse s || isStreaming s) && connected s)%bool.

(** ** [src/components/ChatComponent.tsx] *)

Module ChatComponent.

Definition wsUrl (env : Env) : string :=
  Js.or_else (VITE_WEB_SOCKET_URL env) "ws://localhost:8000/ws/query".

Definition connect (env : Env) (s : State) : State :=
  if current_readyState_is OPEN s then s (* Already connected *)
  else open_socket (wsUrl env) s.

Definition disconnect (s : State) : State :=
  match wsRef s with
  | Some _ => set_wsRef None (with_current_socket ws_close s)
  | None => s
  end.

Definition sendQuery (s : State) : State :=
  if (negb (Js.truthy (Js.trim (query s)))
      || negb (current_readyState_is OPEN s))%bool then s
  else
    let s1 := setIsWaitingForResponse true (setIsStreaming false s) in
    let s2 := addMessage Tquery (query s) s1 in
    let s3 := with_current_socket (ws_send (QueryFrame (query s) (sessionId s))) s2 in
    setQuery "" s3.

Definition appendResponseChunk (chunk : string) (s : State) : State :=
  let s1 := setIsWaitingForResponse false (setIsStreaming true s) in
  let prev := chatMessages s1 in
  let i := currentResponseIndexRef s1 in
  let start_new :=
    setChatMessages (prev ++ [mkMessage Tchunk chunk None])
      (set_currentResponseIndexRef (Z.of_nat (length prev)) s1) in
  if index_in_range i prev then
    match prev !! Z.to_nat i with
    | Some currentMessage =>
        setChatMessages
          (<[Z.to_nat i := mkMessage (type currentMessage)
                                     (content currentMessage +:+ chunk)
                                     (isComplete currentMessage)]> prev) s1
    | None => start_new
    end
  else start_new.

Definition completeCurrentResponse (s : State) : State :=
  let s1 := setIsWaitingForResponse false (setIsStreaming false s) in
  if (0 <=? currentResponseIndexRef s1)%Z
  then set_currentResponseIndexRef (-1)%Z s1 (* Reset for next response *)
  else s1.

Definition cancelRequest (s : State) : State :=
  if negb (current_readyState_is OPEN s) then s
  else
    let s1 := setIsWaitingForResponse false (setIsStreaming false s) in
    let s2 := with_current_socket (ws_send (CancelTypeFrame (sessionId s))) s1 in
    addMessage Tsystem "--- Cancellation requested ---" s2.

Definition handleNewSession (newId : string) (s : State) : State :=
  let s1 := set_sessionId newId s in
  let s2 := setChatMessages [] s1 in
  let s3 := setIsWaitingForResponse false (setIsStreaming false (setQuery "" s2)) in
  addMessage Tsystem ("New session started: " +:+ newId) s3.

Definition suggestion_onClick (suggestion : string) (s : State) : State :=
  if (negb (connected s) || isStreaming s)%bool then s
  else
    let s0 := setQuery suggestion s in
    if current_readyState_is OPEN s0 then
      let s1 := setIsWaitingForResponse true (setIsStreaming false s0) in
      let s2 := addMessage Tquery suggestion s1 in
      let s3 := with_current_socket (ws_send (QueryFrame suggestion (sessionId s))) s2 in
      setQuery "" s3
    else s0.

Definition onopen (s : State) : State :=
  addMessage Tsystem "Connected to WebSocket" (setConnected true s).

Definition onmessage (data : InboundFrame) (s : State) : State :=
  if type_is "chunk" data then
    appendResponseChunk (fdata data) s
  else if (type_is "end" data || type_is "done" data)%bool then
    addMessage Tsystem "--- End of Response ---"
      (setIsWaitingForResponse false (setIsStreaming false (completeCurrentResponse s)))
  else if type_is "cancelled" data then
    addMessage Tsystem
      ("--- Request cancelled: " +:+ Js.interpolate (fmessage data) +:+ " ---")
      (setIsWaitingForResponse false (setIsStreaming false (completeCurrentResponse s)))
  else if Js.truthy_opt (ferror data) then
    addMessage Terror ("Error: " +:+ Js.interpolate (ferror data))
      (setIsWaitingForResponse false (setIsStreaming false s))
  else s.

(** The callback handed to [setTimeout(..., 3000)] by [onclose]. *)
Definition reconnect (env : Env) (s : State) : State :=
  match wsRef s with
  | None => connect env s
  | Some _ => if current_readyState_is CLOSED s then connect env s else s
  end.

Definition onclose (s : State) : State :=
  set_timers (S (timers s))
    (addMessage Tsystem "Disconnected from WebSocket" (setConnected false s)).

Definition onerror (s : State) : State :=
  addMessage Terror "WebSocket Error: [object Event]" (setConnected false s).

Definition step (env : Env) (s : State) (e : Event) : State :=
  match e with
  | Mount => connect env s
  | Unmount => disconnect s
  | InputChange q => setQuery q s
  | Submit => sendQuery s
  | SuggestionClick g => if suggestions_shown s then suggestion_onClick g s else s
  | CancelClick => if cancel_enabled s then cancelRequest s else s
  | NewSessionClick newId => handleNewSession newId s
  | SocketOpen i =>
      if socket_in CONNECTING i s then onopen (mark_socket OPEN i s) else s
  | SocketMessage i data =>
      if socket_in OPEN i s then onmessage data s else s
  | SocketError i =>
      if socket_live i s then onerror s else s
  | SocketClose i =>
      if socket_live i s then onclose (mark_socket CLOSED i s) else s
  | TimerFire =>
      match timers s with
      | S n => reconnect env (set_timers n s)
      | O => s
      end
  end.

Definition run (env : Env) (sid : string) (evs : list Event) : State :=
  fold_left (step env) evs (initial sid).

(** Frames handed to [ws.onmessage] one after the other. *)
Definition deliver (frames : list InboundFrame) (s : State) : State :=
  fold_left (fun s data => onmessage data s) frames s.

End ChatComponent.

(** ** [src/components/projects/Chat.tsx] *)

Module Chat.

(** The URL computed at the head of [connect]. *)
Definition wsUrl (env : Env) : string :=
  let protocol :=
    if String.eqb (location_protocol env) "https:" then "wss:" else "ws:" in
  let from_host :=
    let wsHost := Js.or_else (VITE_API_HOST env) "localhost:8000" in
    protocol +:+ "//" +:+ wsHost +:+ "/ws/query" in
  match VITE_WEB_SOCKET_URL env with
  | Some wsUrl =>
      if negb (Js.truthy wsUrl) then from_host
      else if (Js.startsWith wsUrl "ws://" && String.eqb protocol "wss:")%bool
           then Js.replace wsUrl "ws://" "wss://"
           else wsUrl
  | None => from_host
  end.

Definition connect (env : Env) (s : State) : State :=
  if current_readyState_is OPEN s then s (* Already connected *)
  else open_socket (wsUrl env) s.

Definition disconnect (s : State) : State :=
  match wsRef s with
  | Some _ => set_wsRef None (with_current_socket ws_close s)
  | None => s
  end.

Definition sendQuery (s : State) : State :=
  if (negb (Js.truthy (Js.trim (query s)))
      || negb (current_readyState_is OPEN s))%bool then s
  else
    let s1 := setIsWaitingForResponse true (setIsStreaming false s) in
    let s2 := addMessage Tquery (query s) s1 in
    let s3 := with_current_socket (ws_send (QueryFrame (query s) (sessionId s))) s2 in
    setQuery "" s3.

Definition appendResponseChunk (chunk : string) (s : State) : State :=
  let s1 := setIsWaitingForResponse false (setIsStreaming true s) in
  let prev := chatMessages s1 in
  let i := currentResponseIndexRef s1 in
  let start_new :=
    let newMessage := mkMessage Tchunk chunk (Some false) in
    setChatMessages (prev ++ [newMessage])
      (set_currentResponseIndexRef (Z.of_nat (length prev)) s1) in
  if index_in_range i prev then
    match prev !! Z.to_nat i with
    | Some currentMessage =>
        setChatMessages
          (<[Z.to_nat i := mkMessage (type currentMessage)
                                     (content currentMessage +:+ chunk)
                                     (isComplete currentMessage)]> prev) s1
    | None => start_new
    end
  else start_new.

Definition completeCurrentResponse (s : State) : State :=
  let prev := chatMessages s in
  let i := currentResponseIndexRef s in
  if index_in_range i prev then
    let newMessages :=
      match prev !! Z.to_nat i with
      | Some currentMessage =>
          <[Z.to_nat i := mkMessage Tresponse (content currentMessage) (Some true)]> prev
      | None => prev
      end in
    (* Reset the current response index *)
    setChatMessages newMessages (set_currentResponseIndexRef (-1)%Z s)
  else s.

Definition cancelRequest (s : State) : State :=
  if current_readyState_is OPEN s then
    let s1 := with_current_socket (ws_send (CancelFlagFrame (sessionId s))) s in
    let s2 := setIsWaitingForResponse false (setIsStreaming false s1) in
    let s3 := completeCurrentResponse s2 in
    addMessage Tsystem "--- Request cancelled by user ---" s3
  else s.

Definition handleNewSession (newId : string) (s : State) : State :=
  let s1 := set_sessionId newId s in
  let s2 := setChatMessages [] s1 in
  addMessage Tsystem "--- New Session Started ---" s2.

Definition suggestion_onClick (suggestion : string) (s : State) : State :=
  if (negb (connected s) || isStreaming s)%bool then s
  else if current_readyState_is OPEN s then
    let s1 := setIsWaitingForResponse true (setIsStreaming false s) in
    let s2 := addMessage Tquery suggestion s1 in
    let s3 := with_current_socket (ws_send (QueryFrame suggestion (sessionId s))) s2 in
    setQuery "" s3
  else s.

Definition onopen (s : State) : State :=
  addMessage Tsystem "Connected to WebSocket" (setConnected true s).

Definition onmessage (data : InboundFrame) (s : State) : State :=
  if type_is "chunk" data then
    appendResponseChunk (fdata data) s
  else if (type_is "end" data || type_is "done" data)%bool then
    addMessage Tsystem "--- End of Response ---"
      (setIsWaitingForResponse false (setIsStreaming false (completeCurrentResponse s)))
  else if type_is "cancelled" data then
    addMessage Tsystem
      ("--- Request cancelled: " +:+ Js.interpolate (fmessage data) +:+ " ---")
      (setIsWaitingForResponse false (setIsStreaming false (completeCurrentResponse s)))
  else if Js.truthy_opt (ferror data) then
    addMessage Terror ("Error: " +:+ Js.interpolate (ferror data))
      (setIsWaitingForResponse false (setIsStreaming false s))
  else s.

(** The callback handed to [setTimeout(..., 3000)] by [onclose]. *)
Definition reconnect (env : Env) (s : State) : State :=
  match wsRef s with
  | None => connect env s
  | Some _ => if current_readyState_is CLOSED s then connect env s else s
  end.

Definition onclose (s : State) : State :=
  set_timers (S (timers s))
    (addMessage Tsystem "Disconnected from WebSocket" (setConnected false s)).

Definition onerror (s : State) : State :=
  addMessage Terror "WebSocket Error: [object Event]" (setConnected false s).

Definition step (env : Env) (s : State) (e : Event) : State :=
  match e with
  | Mount => connect env s
  | Unmount => disconnect s
  | InputChange q => setQuery q s
  | Submit => sendQuery s
  | SuggestionClick g => if suggestions_shown s then suggestion_onClick g s else s
  | CancelClick => if cancel_enabled s then cancelRequest s else s
  | NewSessionClick newId => handleNewSession newId s
  | SocketOpen i =>
      if socket_in CONNECTING i s then onopen (mark_socket OPEN i s) else s
  | SocketMessage i data =>
      if socket_in OPEN i s then onmessage data s else s
  | SocketError i =>
      if socket_live i s then onerror s else s
  | SocketClose i =>
      if socket_live i s then onclose (mark_socket CLOSED i s) else s
  | TimerFire =>
      match timers s with
      | S n => reconnect env (set_timers n s)
      | O => s
      end
  end.

Definition run (env : Env) (sid : string) (evs : list Event) : State :=
  fold_left (step env) evs (initial sid).

(** Frames handed to [ws.onmessage] one after the other. *)
Definition deliver (frames : list InboundFrame) (s : State) : State :=
  fold_left (fun s data => onmessage data s) frames s.

End Chat.

(** ** The two components side by side *)

Inductive Component := ChatComponent_tsx | Chat_tsx.

Definition connect_of (c : Component) : Env -> State -> State :=
  match c with
  | ChatComponent_tsx => ChatComponent.connect
  | Chat_tsx => Chat.connect
  end.

Definition sendQuery_of (c : Component) : State -> State :=
  match c with
  | ChatComponent_tsx => ChatComponent.sendQuery
  | Chat_tsx => Chat.sendQuery
  end.

Definition completeCurrentResponse_of (c : Component) : State -> State :=
  match c with
  | ChatComponent_tsx => ChatComponent.completeCurrentResponse
  | Chat_tsx => Chat.completeCurrentResponse
  end.

Definition onmessage_of (c : Component) : InboundFrame -> State -> State :=
  match c with
  | ChatComponent_tsx => ChatComponent.onmessage
  | Chat_tsx => Chat.onmessage
  end.

Definition deliver_of (c : Component) : list InboundFrame -> State -> State :=
  match c with
  | ChatComponent_tsx => ChatComponent.deliver
  | Chat_tsx => Chat.deliver
  end.

Definition disconnect_of (c : Component) : State -> State :=
  match c with
  | ChatComponent_tsx => ChatComponent.disconnect
  | Chat_tsx => Chat.disconnect
  end.

Definition step_of (c : Component) : Env -> State -> Event -> State :=
  match c with
  | ChatComponent_tsx => ChatComponent.step
  | Chat_tsx => Chat.step
  end.

Definition run_of (c : Component) : Env -> string -> list Event -> State :=
  match c with
  | ChatComponent_tsx => ChatComponent.run
  | Chat_tsx => Chat.run
  end.

(** The [isComplete] property a new assistant turn is created with:
    absent in [ChatComponent.tsx], [false] in [Chat.tsx]. *)
Definition new_turn_flag (c : Component) : option bool :=
  match c with
  | ChatComponent_tsx => None
  | Chat_tsx => Some false
  end.

(** ** Vocabulary of the properties *)

(** [isComplete === false] and [isComplete === true]. *)
Definition incomplete (m : InternalMessage) : bool :=
  match isComplete m with
  | Some false => true
  | _ => false
  end.

Definition marked_complete (m : InternalMessage) : bool :=
  match isComplete m with
  | Some true => true
  | _ => false
  end.

Definition incomplete_assistant (m : InternalMessage) : bool :=
  (is_assistant m && incomplete m)%bool.

(** A frame whose [type] the handler dispatches on. *)
Definition recognised (data : InboundFrame) : bool :=
  (type_is "chunk" data || type_is "end" data
   || type_is "done" data || type_is "cancelled" data)%bool.

(** The in-progress index resolves to no turn, or to a turn that is
    already marked complete. *)
Definition finalized_or_none (s : State) : Prop :=
  forall m, current_turn s = Some m -> isComplete m = Some true.

(** What processing an error frame is meant to do to the session. *)
Definition error_frame_effect (s s' : State) (msg : string) : Prop :=
  isStreaming s' = false
  /\ isWaitingForResponse s' = false
  /\ chatMessages s' = chatMessages s ++ [mkMessage Terror ("Error: " +:+ msg) (Some true)]
  /\ currentResponseIndexRef s' = currentResponseIndexRef s
  /\ (forall m, current_turn s = Some m -> current_turn s' = Some m)
  /\ connected s' = connected s
  /\ wsRef s' = wsRef s
  /\ sockets s' = sockets s
  /\ timers s' = timers s.


(** Frames and traces used in the examples. *)
Definition chunk_frame (c : string) : InboundFrame := mkFrame (Some "chunk") c None None.
Definition end_frame : InboundFrame := mkFrame (Some "end") "" None None.
Definition error_frame (msg : string) : InboundFrame := mkFrame None "" None (Some msg).

Definition secure_page : Env := mkEnv "https:" (Some "ws://api.example.com/ws/query") None.

(** Mount, open, ask "A", receive "He". *)
Definition first_fragment : list Event :=
  [Mount; SocketOpen 0; InputChange "A"; Submit; SocketMessage 0 (chunk_frame "He")].

(** ... then the response ends, "B" is asked and "Hi" arrives. *)
Definition two_responses : list Event :=
  first_fragment ++
  [SocketMessage 0 end_frame; InputChange "B"; Submit; SocketMessage 0 (chunk_frame "Hi")].

(** ... or a new chat is started while "He" is on screen, the response
    ends and "B" is asked. *)
Definition new_chat_mid_stream : list Event :=
  first_fragment ++
  [NewSessionClick "session-2"; SocketMessage 0 end_frame; InputChange "B"; Submit].

(** Mount, open, unmount; the socket reports its closure and the
    reconnect timer elapses. *)
Definition unmount_then_timer : list Event :=
  [Mount; SocketOpen 0; Unmount; SocketClose 0; TimerFire].

(** The connection drops, and the component is unmounted before the
    reconnect timer elapses. *)
Definition drop_then_unmount : list Event :=
  [Mount; SocketOpen 0; SocketClose 0; Unmount; TimerFire].


(** At most one incomplete turn, in the form the handlers maintain it:
    a turn whose flag is [false] is an assistant turn and sits at the
    in-progress index. *)
Definition incomplete_at_index (l : list InternalMessage) (r : Z) : Prop :=
  forall i m, l !! i = Some m -> isComplete m = Some false ->
              r = Z.of_nat i /\ type m = Tchunk.

(** The same, as a predicate on the session. *)
Definition Inv (s : State) : Prop :=
  incomplete_at_index (chatMessages s) (currentResponseIndexRef s).

(** No assistant turn carries a completion flag. *)
Definition unflagged (l : list InternalMessage) : Prop :=
  forall m, In m l -> is_assistant m = true -> isComplete m = None.

(** ** Further selectors and vocabulary *)

Definition wsUrl_of (c : Component) : Env -> string :=
  match c with
  | ChatComponent_tsx => ChatComponent.wsUrl
  | Chat_tsx => Chat.wsUrl
  end.

Definition cancelRequest_of (c : Component) : State -> State :=
  match c with
  | ChatComponent_tsx => ChatComponent.cancelRequest
  | Chat_tsx => Chat.cancelRequest
  end.

Definition handleNewSession_of (c : Component) : string -> State -> State :=
  match c with
  | ChatComponent_tsx => ChatComponent.handleNewSession
  | Chat_tsx => Chat.handleNewSession
  end.

Definition suggestion_onClick_of (c : Component) : string -> State -> State :=
  match c with
  | ChatComponent_tsx => ChatComponent.suggestion_onClick
  | Chat_tsx => Chat.suggestion_onClick
  end.

(** The frame each file's [cancelRequest] puts on the wire. *)
Definition cancel_frame_of (c : Component) (sid : string) : OutboundFrame :=
  match c with
  | ChatComponent_tsx => CancelTypeFrame sid
  | Chat_tsx => CancelFlagFrame sid
  end.

(** The socket with one more frame at the end of its outbound queue. *)
Definition queued (f : OutboundFrame) (w : WebSocket) : WebSocket :=
  mkWebSocket (url w) (readyState w) (sent w ++ [f]).

(** Events of one mounted lifetime: everything but the mount effect and
    its cleanup. *)
Definition no_remount (e : Event) : bool :=
  match e with
  | Mount | Unmount => false
  | _ => true
  end.

Definition is_new_session (e : Event) : bool :=
  match e with
  | NewSessionClick _ => true
  | _ => false
  end.

Definition is_closed (r : ReadyState) : bool := readyState_eqb r CLOSED.

(** The connection side of a session: handle, pending timers, connected
    flag and the ready state of every socket constructed so far. *)
Definition connection (s : State) : option nat * nat * bool * list ReadyState :=
  (wsRef s, timers s, connected s, readyState <$> sockets s).

(** One connection at a time: [wsRef] holds the newest socket, every
    older socket is closed, a reconnect timer is pending exactly while
    the newest socket is closed, and the connected flag is only up while
    it is open. *)
Definition one_connection (s : State) : Prop :=
  exists k r,
    wsRef s = Some k
    /\ length (sockets s) = S k
    /\ (readyState <$> sockets s) !! k = Some r
    /\ (forall j v, j < k -> (readyState <$> sockets s) !! j = Some v -> v = CLOSED)
    /\ timers s = (if is_closed r then 1 else 0)
    /\ (connected s = true -> r = OPEN).

(** Every turn of [l] is still at its position in [l'], its text
    possibly longer at the end. *)
Definition grows (l l' : list InternalMessage) : Prop :=
  forall i m, l !! i = Some m ->
    exists m' suffix, l' !! i = Some m' /\ content m' = content m +:+ suffix.

(** ** The bubbles shown for a transcript *)

(** [Message] of the chat widgets, as far as the conversion effect fills
    it; [createdAt], the time of the conversion, is left out. *)
Module Ui.

Inductive Role := user | assistant.

Record Message := mk {
  id : string;
  role : Role;
  content : string
}.

End Ui.

(** [`${n}`] for a counter [n]. *)
Definition number_to_string (n : nat) : string :=
  NilEmpty.string_of_uint (Nat.to_uint n).

(** [`user-${n}`] and [`assistant-${n}`]. *)
Definition bubble_id (r : Ui.Role) (n : nat) : string :=
  match r with
  | Ui.user => "user-" +:+ number_to_string n
  | Ui.assistant => "assistant-" +:+ number_to_string n
  end.

(** The loop of the conversion effect, [messageId] being its counter. *)
Fixpoint convert_from (messageId : nat) (l : list InternalMessage) : list Ui.Message :=
  match l with
  | [] => []
  | msg :: rest =>
      match type msg with
      | Tquery =>
          Ui.mk (bubble_id Ui.user messageId) Ui.user (content msg)
          :: convert_from (S messageId) rest
      | Tchunk | Tresponse =>
          Ui.mk (bubble_id Ui.assistant messageId) Ui.assistant (content msg)
          :: convert_from (S messageId) rest
      | Terror | Tsystem => convert_from messageId rest
      end
  end.

(** [messages] as the effect sets it from [chatMessages]. *)
Definition convert (l : list InternalMessage) : list Ui.Message := convert_from 0 l.

(** The role a turn is shown under, if it is shown. *)
Definition shown_as (m : InternalMessage) : option (Ui.Role * string) :=
  match type m with
  | Tquery => Some (Ui.user, content m)
  | Tchunk | Tresponse => Some (Ui.assistant, content m)
  | Terror | Tsystem => None
  end.

(** ** More JavaScript string primitives *)

(** [String.prototype.toLowerCase] on code units below 256: the letters
    A to Z and the accented capitals other than the multiplication sign
    move up by 32. *)
Definition lower_char (c : ascii) : ascii :=
  let n := nat_of_ascii c in
  if ((65 <=? n) && (n <=? 90) || (192 <=? n) && (n <=? 222) && negb (n =? 215))%nat%bool
  then ascii_of_nat (n + 32)
  else c.

Fixpoint toLowerCase (s : string) : string :=
  match s with
  | EmptyString => EmptyString
  | String c s' => String (lower_char c) (toLowerCase s')
  end.

(** [s.includes(sub)] *)
Fixpoint includes (s sub : string) : bool :=
  if String.prefix sub s then true
  else match s with
       | EmptyString => false
       | String _ s' => includes s' sub
       end.

(** [a.join(',')], which is also what an array becomes when compared
    with [<]. *)
Fixpoint join (l : list string) : string :=
  match l with
  | [] => ""
  | [x] => x
  | x :: rest => x +:+ "," +:+ join rest
  end.

(** [arr.sort(compareFn)] for a consistent [compareFn]: the stable sort,
    an element moving behind a later one only when it compares greater. *)
Fixpoint sort_insert {A} (compareFn : A -> A -> Z) (x : A) (l : list A) : list A :=
  match l with
  | [] => [x]
  | y :: rest =>
      if (0 <? compareFn x y)%Z then y :: sort_insert compareFn x rest
      else x :: l
  end.

Definition sort {A} (compareFn : A -> A -> Z) (l : list A) : list A :=
  foldr (sort_insert compareFn) [] l.

(** ** The document table of [ChatComponent.tsx] *)

Module Docs.

(** [keyof Document] *)
Inductive Field :=
| f_id | f_version | f_name | f_type | f_size | f_summary | f_key_topics
| f_data_classification | f_upload_timestamp | f_s3_key | f_s3_bucket
| f_content_type | f_last_modified.

(** [interface Document]; [size] is a whole number of bytes. *)
Record Document := mkDocument {
  id : string;
  version : string;
  name : string;
  type : string;
  size : Z;
  summary : string;
  key_topics : list string;
  data_classification : string;
  upload_timestamp : string;
  s3_key : string;
  s3_bucket : string;
  content_type : string;
  last_modified : string
}.

(** [interface UploadingDocument]; [isUploading] is always [true]. *)
Record UploadingDocument := mkUploading {
  uid : string;
  uname : string;
  usize : Z
}.

Inductive SortOrder := asc | desc.

(** The values [a[sortField]] can take, by the type of the field. *)
Inductive Value :=
| VString (s : string)
| VNumber (n : Z)
| VArray (l : list string).

Definition get (f : Field) (d : Document) : Value :=
  match f with
  | f_id => VString (id d)
  | f_version => VString (version d)
  | f_name => VString (name d)
  | f_type => VString (type d)
  | f_size => VNumber (size d)
  | f_summary => VString (summary d)
  | f_key_topics => VArray (key_topics d)
  | f_data_classification => VString (data_classification d)
  | f_upload_timestamp => VString (upload_timestamp d)
  | f_s3_key => VString (s3_key d)
  | f_s3_bucket => VString (s3_bucket d)
  | f_content_type => VString (content_type d)
  | f_last_modified => VString (last_modified d)
  end.

(** The operand of the comparison: strings are lowered first, numbers
    stay, an array is compared as its joined text. *)
Inductive Key :=
| KText (s : string)
| KNumber (n : Z).

Definition key (v : Value) : Key :=
  match v with
  | VString s => KText (toLowerCase s)
  | VNumber n => KNumber n
  | VArray l => KText (join l)
  end.

(** [a < b] on two operands of one field. *)
Definition less (a b : Key) : bool :=
  match a, b with
  | KText x, KText y => String.ltb x y
  | KNumber x, KNumber y => (x <? y)%Z
  | _, _ => false
  end.

(** The function handed to [sort] for [sortedDocuments]. *)
Definition compareFn (sortField : option Field) (sortOrder : SortOrder)
           (a b : Document) : Z :=
  match sortField with
  | None => 0
  | Some f =>
      let aValue := key (get f a) in
      let bValue := key (get f b) in
      if less aValue bValue then
        match sortOrder with asc => -1 | desc => 1 end
      else if less bValue aValue then
        match sortOrder with asc => 1 | desc => -1 end
      else 0
  end%Z.

(** The hooks of the table. *)
Record Table := mkTable {
  documents : list Document;
  uploadingDocuments : list UploadingDocument;
  isLoadingDocuments : bool;
  documentsError : option string;
  isUploading : bool;
  uploadError : option string;
  selectedDocuments : gset string;
  sortField : option Field;
  sortOrder : SortOrder
}.

Definition field_eqb (a b : Field) : bool :=
  match a, b with
  | f_id, f_id | f_version, f_version | f_name, f_name | f_type, f_type
  | f_size, f_size | f_summary, f_summary | f_key_topics, f_key_topics
  | f_data_classification, f_data_classification
  | f_upload_timestamp, f_upload_timestamp | f_s3_key, f_s3_key
  | f_s3_bucket, f_s3_bucket | f_content_type, f_content_type
  | f_last_modified, f_last_modified => true
  | _, _ => false
  end.

Definition toggleDocumentSelection (documentId : string) (t : Table) : Table :=
  let prev := selectedDocuments t in
  let newSelection :=
    if bool_decide (documentId ∈ prev) then prev ∖ {[documentId]}
    else prev ∪ {[documentId]} in
  mkTable (documents t) (uploadingDocuments t) (isLoadingDocuments t) (documentsError t)
          (isUploading t) (uploadError t) newSelection (sortField t) (sortOrder t).

Definition handleSort (field : Field) (t : Table) : Table :=
  let same :=
    match sortField t with
    | Some f => field_eqb f field
    | None => false
    end in
  if same then
    mkTable (documents t) (uploadingDocuments t) (isLoadingDocuments t) (documentsError t)
            (isUploading t) (uploadError t) (selectedDocuments t) (sortField t)
            (match sortOrder t with asc => desc | desc => asc end)
  else
    mkTable (documents t) (uploadingDocuments t) (isLoadingDocuments t) (documentsError t)
            (isUploading t) (uploadError t) (selectedDocuments t) (Some field) asc.

Definition sortedDocuments (t : Table) : list Document :=
  sort (compareFn (sortField t) (sortOrder t)) (documents t).

(** The rows [renderColumnContent] builds for one column; what is drawn
    inside a row is up to the column. *)
Inductive Row :=
| UploadingRow (d : UploadingDocument)
| PlaceholderRow (index : nat)
| ErrorRow (message : string)
| DocumentRow (d : Document)
| NoDocumentsRow.

Definition renderColumnContent (renderUploading : bool) (t : Table) : list Row :=
  (if renderUploading then UploadingRow <$> uploadingDocuments t else [])
  ++ (if isLoadingDocuments t then PlaceholderRow <$> seq 0 5
      else if Js.truthy_opt (documentsError t)
           then [ErrorRow (Js.interpolate (documentsError t))]
      else if (0 <? length (documents t))%nat then
        let documentsToRender :=
          match sortField t with
          | Some _ => sortedDocuments t
          | None => documents t
          end in
        DocumentRow <$> documentsToRender
      else if (length (uploadingDocuments t) =? 0)%nat then [NoDocumentsRow]
      else []).

(** The cells of the fixed row-number column. *)
Inductive RowNumber :=
| UpArrow
| Number (n : nat)
| Bang
| Dash.

Definition rowNumbers (t : Table) : list RowNumber :=
  let rowIndex := 1 + length (uploadingDocuments t) in
  ((fun _ => UpArrow) <$> uploadingDocuments t)
  ++ (if isLoadingDocuments t then (fun index => Number (rowIndex + index)) <$> seq 0 5
      else if Js.truthy_opt (documentsError t) then [Bang]
      else if (0 <? length (documents t))%nat
           then imap (fun index _ => Number (rowIndex + index)) (documents t)
      else if (length (uploadingDocuments t) =? 0)%nat then [Dash]
      else []).

(** [uploadDocuments], in the three stretches its [await] cuts it into.
    Each file comes with the id drawn for its placeholder row. *)
Record File := mkFile {
  file_name : string;
  file_size : Z
}.

Definition skeletonDocs (files : list (File * string)) : list UploadingDocument :=
  (fun '(file, i) => mkUploading i (file_name file) (file_size file)) <$> files.

Definition set_uploading (l : list UploadingDocument) (busy : bool) (err : option string)
           (t : Table) : Table :=
  mkTable (documents t) l (isLoadingDocuments t) (documentsError t)
          busy err (selectedDocuments t) (sortField t) (sortOrder t).

(** Up to the request: nothing at all for an empty selection, otherwise
    the placeholders go to the end of the list. *)
Definition upload_started (files : list (File * string)) (t : Table) : Table :=
  match files with
  | [] => t
  | _ => set_uploading (uploadingDocuments t ++ skeletonDocs files) true None t
  end.

(** [prev.filter(doc => !skeletonIds.includes(doc.id))] *)
Definition without (skeletonIds : list string) (prev : list UploadingDocument)
  : list UploadingDocument :=
  List.filter (fun doc => negb (existsb (String.eqb (uid doc)) skeletonIds)) prev.

(** The request succeeded and the server counted [failedCount] failures:
    the placeholders of this upload are taken out by id. *)
Definition upload_succeeded (files : list (File * string)) (failedCount : nat)
           (t : Table) : Table :=
  let skeletonIds := uid <$> skeletonDocs files in
  set_uploading (without skeletonIds (uploadingDocuments t)) (isUploading t)
    (if (0 <? failedCount)%nat
     then Some (number_to_string failedCount +:+ " documents failed to upload")
     else uploadError t) t.

(** The request failed with [message]: the same removal, in the [catch]. *)
Definition upload_failed (files : list (File * string)) (message : string)
           (t : Table) : Table :=
  let skeletonIds := uid <$> skeletonDocs files in
  set_uploading (without skeletonIds (uploadingDocuments t)) (isUploading t)
    (Some message) t.

(** The [finally]. *)
Definition upload_finally (t : Table) : Table :=
  set_uploading (uploadingDocuments t) false (uploadError t) t.

End Docs.

(** [a] does not come after [b] in the order of the field. *)
Definition not_after_key (a b : Docs.Key) : Prop := Docs.less b a = false.

(** A row and the cell of the row-number column that belongs beside it. *)
Definition row_matches (r : Docs.Row) (n : Docs.RowNumber) : bool :=
  match r, n with
  | Docs.UploadingRow _, Docs.UpArrow
  | Docs.PlaceholderRow _, Docs.Number _
  | Docs.ErrorRow _, Docs.Bang
  | Docs.DocumentRow _, Docs.Number _
  | Docs.NoDocumentsRow, Docs.Dash => true
  | _, _ => false
  end.

(** ** The history sidebar of [Chat.tsx] *)

Module Sidebar.

(** [interface ChatSession] *)
Record ChatSession := mkChat {
  id : string;
  title : string;
  date : string;
  preview : string;
  isActive : option bool
}.

Definition filteredChatHistory (searchQuery : string) (chatHistory : list ChatSession)
  : list ChatSession :=
  if Js.truthy searchQuery then
    List.filter
      (fun chat =>
         (includes (toLowerCase (title chat)) (toLowerCase searchQuery)
          || includes (toLowerCase (preview chat)) (toLowerCase searchQuery))%bool)
      chatHistory
  else chatHistory.

End Sidebar.

(** A string made of white space only, the empty one included. *)
Fixpoint blank (s : string) : bool :=
  match s with
  | EmptyString => true
  | String c s' => (Js.isWhiteSpace c && blank s')%bool
  end.

(** * Properties *)

(** ** Strings and the in-progress index *)

Lemma append_assoc (a b c : string) : (a +:+ b) +:+ c = a +:+ (b +:+ c).
Proof.
  induction a as [|x a IH]; [reflexivity|].
  change (String x ((a +:+ b) +:+ c) = String x (a +:+ (b +:+ c))).
  now rewrite IH.
Qed.

Lemma append_empty_r (a : string) : a +:+ "" = a.
Proof.
  induction a as [|x a IH]; [reflexivity|].
  change (String x (a +:+ "") = String x a). now rewrite IH.
Qed.

Lemma type_is_chunk data : is_chunk data -> type_is "chunk" data = true.
Proof. unfold is_chunk, type_is. now intros ->. Qed.

Lemma current_turn_Some s m :
  current_turn s = Some m ->
  index_in_range (currentResponseIndexRef s) (chatMessages s) = true
  /\ chatMessages s !! Z.to_nat (currentResponseIndexRef s) = Some m.
Proof.
  unfold current_turn.
  destruct (index_in_range _ _); [intros H; split; [reflexivity | exact H] | discriminate].
Qed.

Lemma current_turn_None s :
  current_turn s = None ->
  index_in_range (currentResponseIndexRef s) (chatMessages s) = false.
Proof.
  unfold current_turn.
  destruct (index_in_range _ _) eqn:E; [|reflexivity].
  intros H. apply lookup_ge_None in H.
  unfold index_in_range in E. lia.
Qed.

Lemma index_in_range_insert i k m l :
  index_in_range i (<[k := m]> l) = index_in_range i l.
Proof. unfold index_in_range. now rewrite length_insert. Qed.

Lemma index_in_range_lt i l :
  index_in_range i l = true -> Z.to_nat i < length l.
Proof. unfold index_in_range. lia. Qed.

(** ** Fragment accumulation *)

(** One fragment while the index resolves: the text of that turn grows by
    the fragment, nothing else in the transcript moves. *)
Lemma ChatComponent_append_current s m chunk :
  current_turn s = Some m ->
  ChatComponent.appendResponseChunk chunk s =
  setChatMessages
    (<[Z.to_nat (currentResponseIndexRef s) :=
         mkMessage (type m) (content m +:+ chunk) (isComplete m)]> (chatMessages s))
    (setIsWaitingForResponse false (setIsStreaming true s)).
Proof.
  intros H. apply current_turn_Some in H as [Hr Hl].
  unfold ChatComponent.appendResponseChunk. cbn. now rewrite Hr, Hl.
Qed.

Lemma Chat_append_current s m chunk :
  current_turn s = Some m ->
  Chat.appendResponseChunk chunk s =
  setChatMessages
    (<[Z.to_nat (currentResponseIndexRef s) :=
         mkMessage (type m) (content m +:+ chunk) (isComplete m)]> (chatMessages s))
    (setIsWaitingForResponse false (setIsStreaming true s)).
Proof.
  intros H. apply current_turn_Some in H as [Hr Hl].
  unfold Chat.appendResponseChunk. cbn. now rewrite Hr, Hl.
Qed.

(** One fragment while the index resolves to nothing: a new assistant
    turn holding just the fragment, and the index now points at it. *)
Lemma ChatComponent_append_fresh s chunk :
  current_turn s = None ->
  ChatComponent.appendResponseChunk chunk s =
  setChatMessages (chatMessages s ++ [mkMessage Tchunk chunk None])
    (set_currentResponseIndexRef (Z.of_nat (length (chatMessages s)))
       (setIsWaitingForResponse false (setIsStreaming true s))).
Proof.
  intros H. apply current_turn_None in H.
  unfold ChatComponent.appendResponseChunk. cbn. now rewrite H.
Qed.

Lemma Chat_append_fresh s chunk :
  current_turn s = None ->
  Chat.appendResponseChunk chunk s =
  setChatMessages (chatMessages s ++ [mkMessage Tchunk chunk (Some false)])
    (set_currentResponseIndexRef (Z.of_nat (length (chatMessages s)))
       (setIsWaitingForResponse false (setIsStreaming true s))).
Proof.
  intros H. apply current_turn_None in H.
  unfold Chat.appendResponseChunk. cbn. now rewrite H.
Qed.

(** After either kind of step the index resolves to the turn that took
    the fragment. *)
Lemma current_turn_after_insert s m' flags :
  index_in_range (currentResponseIndexRef s) (chatMessages s) = true ->
  currentResponseIndexRef flags = currentResponseIndexRef s ->
  current_turn
    (setChatMessages (<[Z.to_nat (currentResponseIndexRef s) := m']> (chatMessages s)) flags)
  = Some m'.
Proof.
  intros Hr Hf. unfold current_turn. cbn. rewrite Hf, index_in_range_insert, Hr.
  apply list_lookup_insert_eq. now apply index_in_range_lt.
Qed.

Lemma current_turn_after_push l m' flags :
  current_turn
    (setChatMessages (l ++ [m']) (set_currentResponseIndexRef (Z.of_nat (length l)) flags))
  = Some m'.
Proof.
  unfold current_turn. cbn [chatMessages currentResponseIndexRef setChatMessages
                              set_currentResponseIndexRef].
  assert (index_in_range (Z.of_nat (length l)) (l ++ [m']) = true) as ->.
  { unfold index_in_range. rewrite length_app. cbn [length].
    apply andb_true_iff. split; [apply Z.leb_le | apply Z.ltb_lt]; lia. }
  rewrite Nat2Z.id, lookup_app_r by lia. now rewrite Nat.sub_diag.
Qed.

Section Accumulate.

(** The facts about one component that the accumulation argument
    needs: how its handler treats a chunk frame in each of the two
    cases.  [flag] is the completion flag a new assistant turn gets. *)
Variable onmessage : InboundFrame -> State -> State.
Variable flag : option bool.

Hypothesis on_current : forall s m data,
  is_chunk data -> current_turn s = Some m ->
  onmessage data s =
  setChatMessages
    (<[Z.to_nat (currentResponseIndexRef s) :=
         mkMessage (type m) (content m +:+ fdata data) (isComplete m)]> (chatMessages s))
    (setIsWaitingForResponse false (setIsStreaming true s)).

Hypothesis on_fresh : forall s data,
  is_chunk data -> current_turn s = None ->
  onmessage data s =
  setChatMessages (chatMessages s ++ [mkMessage Tchunk (fdata data) flag])
    (set_currentResponseIndexRef (Z.of_nat (length (chatMessages s)))
       (setIsWaitingForResponse false (setIsStreaming true s))).

Let deliver frames s := fold_left (fun s data => onmessage data s) frames s.

Lemma accumulate_current frames : forall s m,
  Forall is_chunk frames ->
  current_turn s = Some m ->
  chatMessages (deliver frames s) =
    <[Z.to_nat (currentResponseIndexRef s) :=
        mkMessage (type m) (content m +:+ concat_all (map fdata frames)) (isComplete m)]>
      (chatMessages s)
  /\ currentResponseIndexRef (deliver frames s) = currentResponseIndexRef s.
Proof.
  induction frames as [|data frames IH]; intros s m Hall Hcur.
  - cbn. rewrite append_empty_r. split; [|reflexivity].
    destruct m. symmetry. apply list_insert_id.
    now apply current_turn_Some in Hcur as [_ ?].
  - inversion Hall as [|? ? Hd Hrest]; subst.
    pose proof (current_turn_Some _ _ Hcur) as [Hr _].
    unfold deliver. cbn [fold_left].
    rewrite (on_current s m data Hd Hcur).
    set (m' := mkMessage (type m) (content m +:+ fdata data) (isComplete m)).
    set (s1 := setChatMessages _ _).
    assert (Hcur1 : current_turn s1 = Some m')
      by (apply current_turn_after_insert; [exact Hr | reflexivity]).
    destruct (IH s1 m' Hrest Hcur1) as [Hm Hi].
    fold (deliver frames s1). rewrite Hm, Hi. subst s1 m'.
    cbn [chatMessages currentResponseIndexRef setChatMessages setIsStreaming
         setIsWaitingForResponse type content isComplete map concat_all foldr].
    rewrite list_insert_insert_eq, append_assoc. split; reflexivity.
Qed.

Lemma accumulate_fresh data frames s :
  Forall is_chunk (data :: frames) ->
  current_turn s = None ->
  chatMessages (deliver (data :: frames) s) =
    chatMessages s ++ [mkMessage Tchunk (concat_all (map fdata (data :: frames))) flag]
  /\ currentResponseIndexRef (deliver (data :: frames) s)
     = Z.of_nat (length (chatMessages s)).
Proof.
  intros Hall Hcur. inversion Hall as [|? ? Hd Hrest]; subst.
  unfold deliver. cbn [fold_left].
  rewrite (on_fresh s data Hd Hcur).
  set (m' := mkMessage Tchunk (fdata data) flag).
  set (s1 := setChatMessages _ _).
  assert (Hcur1 : current_turn s1 = Some m') by apply current_turn_after_push.
  destruct (accumulate_current frames s1 m' Hrest Hcur1) as [Hm Hi].
  fold (deliver frames s1). rewrite Hm, Hi. subst s1 m'.
  cbn [chatMessages currentResponseIndexRef setChatMessages setIsStreaming
       setIsWaitingForResponse set_currentResponseIndexRef
       type content isComplete map concat_all foldr].
  rewrite Nat2Z.id. split; [|reflexivity].
  rewrite insert_app_r_alt by lia. now rewrite Nat.sub_diag.
Qed.

End Accumulate.

Lemma onmessage_chunk c data s :
  is_chunk data ->
  onmessage_of c data s =
  match c with
  | ChatComponent_tsx => ChatComponent.appendResponseChunk (fdata data) s
  | Chat_tsx => Chat.appendResponseChunk (fdata data) s
  end.
Proof.
  intros H. apply type_is_chunk in H.
  destruct c; cbn; unfold ChatComponent.onmessage, Chat.onmessage; now rewrite H.
Qed.

Lemma deliver_of_fold c frames s :
  deliver_of c frames s = fold_left (fun s data => onmessage_of c data s) frames s.
Proof. destruct c; reflexivity. Qed.

(** C1. Chunk frames delivered one after the other are accumulated by
    concatenation in delivery order: when the in-progress index resolves
    to a turn, that turn's text becomes its old text followed by every
    payload in order; when it resolves to nothing, the first chunk starts
    an assistant turn and the text of that turn is the payloads joined in
    order.  No fragment replaces earlier text, no other turn is touched,
    and the index keeps pointing at the same turn throughout. *)
Theorem C1_chunks_concatenate (c : Component) (frames : list InboundFrame) (s : State) :
  Forall is_chunk frames ->
  frames <> [] ->
  let s' := deliver_of c frames s in
  let text := concat_all (map fdata frames) in
  match current_turn s with
  | Some m =>
      chatMessages s' =
        <[Z.to_nat (currentResponseIndexRef s) :=
            mkMessage (type m) (content m +:+ text) (isComplete m)]> (chatMessages s)
      /\ currentResponseIndexRef s' = currentResponseIndexRef s
  | None =>
      chatMessages s' = chatMessages s ++ [mkMessage Tchunk text (new_turn_flag c)]
      /\ currentResponseIndexRef s' = Z.of_nat (length (chatMessages s))
  end.
Proof.
  intros Hall Hne. cbv zeta. rewrite deliver_of_fold.
  assert (Hcur : forall s m data, is_chunk data -> current_turn s = Some m ->
            onmessage_of c data s =
            setChatMessages
              (<[Z.to_nat (currentResponseIndexRef s) :=
                   mkMessage (type m) (content m +:+ fdata data) (isComplete m)]>
                 (chatMessages s))
              (setIsWaitingForResponse false (setIsStreaming true s))).
  { intros s0 m data Hd Hc. rewrite onmessage_chunk by exact Hd.
    destruct c; [now apply ChatComponent_append_current | now apply Chat_append_current]. }
  assert (Hnew : forall s data, is_chunk data -> current_turn s = None ->
            onmessage_of c data s =
            setChatMessages (chatMessages s ++ [mkMessage Tchunk (fdata data) (new_turn_flag c)])
              (set_currentResponseIndexRef (Z.of_nat (length (chatMessages s)))
                 (setIsWaitingForResponse false (setIsStreaming true s)))).
  { intros s0 data Hd Hc. rewrite onmessage_chunk by exact Hd.
    destruct c; [now apply ChatComponent_append_fresh | now apply Chat_append_fresh]. }
  destruct (current_turn s) as [m|] eqn:E.
  - now apply (accumulate_current (onmessage_of c) Hcur).
  - destruct frames as [|data frames]; [contradiction|].
    now apply (accumulate_fresh (onmessage_of c) (new_turn_flag c) Hcur Hnew).
Qed.

(** The scenario of the specification: "He" then "llo" after the query
    "A" give one assistant turn reading "Hello". *)
Lemma C1_chunks_concatenate_witness :
  chatMessages
    (deliver_of Chat_tsx [chunk_frame "He"; chunk_frame "llo"]
       (addMessage Tquery "A" (initial "session-1")))
  = [mkMessage Tquery "A" (Some true); mkMessage Tchunk "Hello" (Some false)].
Proof.
  pose proof (C1_chunks_concatenate Chat_tsx [chunk_frame "He"; chunk_frame "llo"]
                (addMessage Tquery "A" (initial "session-1"))) as H.
  destruct H as [H _]; [repeat constructor | discriminate | exact H].
Defined.

(** ** Guards of [sendQuery] and [connect] *)

(** C6. Submitting a query that is empty once trimmed, or submitting
    while the socket behind [wsRef] is missing or not open, returns the
    session exactly as it was: no user turn is appended, no frame is
    queued on any socket, and the waiting and streaming flags keep their
    values. *)
Theorem C6_sendQuery_noop (c : Component) (s : State) :
  Js.trim (query s) = "" \/ current_readyState_is OPEN s = false ->
  sendQuery_of c s = s.
Proof.
  intros H.
  assert (G : (negb (Js.truthy (Js.trim (query s)))
               || negb (current_readyState_is OPEN s))%bool = true).
  { destruct H as [-> | ->]; [reflexivity | apply orb_true_r]. }
  destruct c; cbn; unfold ChatComponent.sendQuery, Chat.sendQuery; now rewrite G.
Qed.

(** A blank query on an open connection, and a real query on a connection
    that is still being established. *)
Lemma C6_sendQuery_noop_witness :
  (let s := setQuery "  " (run_of Chat_tsx secure_page "session-1" [Mount; SocketOpen 0]) in
   sendQuery_of Chat_tsx s = s)
  /\ (let s := setQuery "A" (run_of ChatComponent_tsx secure_page "session-1" [Mount]) in
      sendQuery_of ChatComponent_tsx s = s).
Proof.
  split; cbv zeta.
  - apply C6_sendQuery_noop. left. reflexivity.
  - apply C6_sendQuery_noop. right. reflexivity.
Defined.

(** C7. [connect()] on a session whose socket is open returns the session
    exactly as it was: the socket store has no new entry, [wsRef] holds
    the same handle, and the transcript gets no further notice. *)
Theorem C7_connect_idempotent (c : Component) (env : Env) (s : State) :
  current_readyState_is OPEN s = true ->
  connect_of c env s = s.
Proof.
  intros H. destruct c; cbn; unfold ChatComponent.connect, Chat.connect; now rewrite H.
Qed.

Lemma C7_connect_idempotent_witness :
  let s := run_of Chat_tsx secure_page "session-1" [Mount; SocketOpen 0] in
  connect_of Chat_tsx secure_page s = s
  /\ length (sockets s) = 1
  /\ chatMessages s = [mkMessage Tsystem "Connected to WebSocket" (Some true)].
Proof.
  cbv zeta. split; [|split; reflexivity].
  apply C7_connect_idempotent. reflexivity.
Defined.

(** ** The message handler *)

Lemma not_recognised data :
  recognised data = false ->
  type_is "chunk" data = false
  /\ (type_is "end" data || type_is "done" data)%bool = false
  /\ type_is "cancelled" data = false.
Proof.
  unfold recognised.
  destruct (type_is "chunk" data), (type_is "end" data),
           (type_is "done" data), (type_is "cancelled" data); cbn; intuition congruence.
Qed.

(** C10. A frame whose [type] is none of [chunk], [end], [done] and
    [cancelled] and whose [error] is absent or falsy leaves the whole
    session as it was: transcript, in-progress index, the streaming,
    waiting and connected flags, and every socket's outbound queue. *)
Theorem C10_unrecognised_frame_ignored (c : Component) (data : InboundFrame) (s : State) :
  recognised data = false ->
  Js.truthy_opt (ferror data) = false ->
  onmessage_of c data s = s.
Proof.
  intros Hr He. apply not_recognised in Hr as (H1 & H2 & H3).
  destruct c; cbn; unfold ChatComponent.onmessage, Chat.onmessage;
    now rewrite H1, H2, H3, He.
Qed.

(** A [ping] frame, and a frame whose [error] is the empty string. *)
Lemma C10_unrecognised_frame_ignored_witness :
  let s := run_of Chat_tsx secure_page "session-1" first_fragment in
  onmessage_of Chat_tsx (mkFrame (Some "ping") "" None None) s = s
  /\ onmessage_of ChatComponent_tsx (mkFrame None "" None (Some "")) s = s.
Proof.
  cbv zeta. split; apply C10_unrecognised_frame_ignored; reflexivity.
Defined.

Lemma current_turn_push s m x flags :
  current_turn s = Some m ->
  chatMessages flags = chatMessages s ->
  currentResponseIndexRef flags = currentResponseIndexRef s ->
  current_turn (addMessage Terror x flags) = Some m.
Proof.
  intros H Hm Hi. apply current_turn_Some in H as [Hr Hl].
  unfold current_turn, addMessage. cbn [chatMessages currentResponseIndexRef setChatMessages].
  rewrite Hm, Hi.
  assert (index_in_range (currentResponseIndexRef s)
            (chatMessages s ++ [mkMessage Terror x (Some true)]) = true) as ->.
  { unfold index_in_range in *. rewrite length_app. cbn [length].
    apply andb_true_iff in Hr as [H0 H1].
    apply andb_true_iff. split; [exact H0 | apply Z.ltb_lt; apply Z.ltb_lt in H1; lia]. }
  now apply lookup_app_l_Some.
Qed.

(** C8, as the code has it.  A frame that reaches the error branch, that
    is one whose [type] is none of [chunk], [end], [done], [cancelled]
    and whose [error] is truthy, clears the streaming and waiting flags
    and appends exactly one error turn reading "Error: " followed by the
    message.  The connection is left alone (connected flag, socket
    handle, socket store and timers unchanged), the in-progress index is
    unchanged, and the turn it resolves to is still the same turn, not
    finalized. *)
Theorem C8_error_frame (c : Component) (data : InboundFrame) (s : State) (msg : string) :
  recognised data = false ->
  ferror data = Some msg ->
  Js.truthy msg = true ->
  error_frame_effect s (onmessage_of c data s) msg.
Proof.
  intros Hr He Ht. apply not_recognised in Hr as (H1 & H2 & H3).
  assert (Hh : onmessage_of c data s =
               addMessage Terror ("Error: " +:+ msg)
                 (setIsWaitingForResponse false (setIsStreaming false s))).
  { destruct c; cbn; unfold ChatComponent.onmessage, Chat.onmessage;
      rewrite H1, H2, H3, He; cbn [Js.truthy_opt Js.interpolate]; now rewrite Ht. }
  rewrite Hh. unfold error_frame_effect. repeat split.
  intros m Hm. now apply current_turn_push with (s := s).
Qed.

Lemma C8_error_frame_witness :
  error_frame_effect
    (run_of Chat_tsx secure_page "session-1" first_fragment)
    (onmessage_of Chat_tsx (error_frame "boom")
       (run_of Chat_tsx secure_page "session-1" first_fragment))
    "boom".
Proof. apply C8_error_frame; reflexivity. Defined.

(** C8 as stated fails on frames that carry an [error] property without
    reaching the error branch: next to [type: 'chunk'] the frame is
    handled as a chunk, so that streaming becomes true and no error turn
    appears; and an [error] that is the empty string is ignored, so that
    no error turn appears either. *)
Lemma C8_error_field_counterexample :
  let s := run_of Chat_tsx secure_page "session-1" first_fragment in
  (let data := mkFrame (Some "chunk") "x" None (Some "boom") in
   ferror data = Some "boom"
   /\ isStreaming (onmessage_of Chat_tsx data s) = true
   /\ ~ error_frame_effect s (onmessage_of Chat_tsx data s) "boom")
  /\ (let data := mkFrame None "" None (Some "") in
      ferror data = Some ""
      /\ onmessage_of Chat_tsx data s = s
      /\ ~ error_frame_effect s (onmessage_of Chat_tsx data s) "").
Proof.
  cbv zeta. split; (split; [reflexivity | split; [reflexivity|]]).
  - intros [H _]. vm_compute in H. discriminate H.
  - intros (_ & _ & H & _). vm_compute in H. discriminate H.
Qed.

(** ** Finalization *)








(** In [Chat.tsx] the optimistic cancellation itself leaves the session
    finalized, so the theorem above applies to the acknowledgement that
    follows it. *)
Lemma Chat_cancelRequest_finalizes s :
  current_readyState_is OPEN s = true ->
  finalized_or_none (Chat.cancelRequest s)
  /\ isStreaming (Chat.cancelRequest s) = false
  /\ isWaitingForResponse (Chat.cancelRequest s) = false.
Proof.
  intros Hop. unfold Chat.cancelRequest. rewrite Hop.
  assert (Hsend : forall f, chatMessages (with_current_socket f s) = chatMessages s
                            /\ currentResponseIndexRef (with_current_socket f s)
                               = currentResponseIndexRef s).
  { intros f. unfold with_current_socket. destruct (wsRef s); split; reflexivity. }
  destruct (Hsend (ws_send (CancelFlagFrame (sessionId s)))) as [Hm Hi].
  set (s1 := with_current_socket _ s) in *.
  unfold Chat.completeCurrentResponse.
  cbn [chatMessages currentResponseIndexRef setIsWaitingForResponse setIsStreaming].
  rewrite Hm, Hi.
  destruct (index_in_range (currentResponseIndexRef s) (chatMessages s)) eqn:E.
  - split; [|split; reflexivity].
    intros m. unfold current_turn, addMessage. cbn. discriminate.
  - split; [|split; reflexivity].
    intros m. unfold current_turn, addMessage.
    cbn [chatMessages currentResponseIndexRef setChatMessages
         setIsWaitingForResponse setIsStreaming].
    rewrite Hm, Hi.
    destruct (index_in_range _ (chatMessages s ++ _)) eqn:E2; [|discriminate].
    intros Hl. apply lookup_app_Some in Hl as [Hl | [Hge Hl]].
    + apply lookup_lt_Some in Hl. unfold index_in_range in *.
      apply andb_true_iff in E2 as [E0 _]. apply andb_false_iff in E as [E|E]; [congruence|].
      apply Z.ltb_ge in E. apply Z.leb_le in E0. lia.
    + apply list_lookup_singleton_Some in Hl as [_ <-]. reflexivity.
Qed.


(** ** The completion flag across a whole session *)

Lemma incomplete_push l r x :
  incomplete_at_index l r -> isComplete x = Some true ->
  incomplete_at_index (l ++ [x]) r.
Proof.
  intros H Hx i m Hl Hm. apply lookup_app_Some in Hl as [Hl | [_ Hl]].
  - now apply (H i m).
  - apply list_lookup_singleton_Some in Hl as [_ <-]. congruence.
Qed.

Lemma incomplete_reset x r :
  isComplete x = Some true -> incomplete_at_index [x] r.
Proof.
  intros Hx i m Hl Hm. apply list_lookup_singleton_Some in Hl as [_ <-]. congruence.
Qed.

Lemma incomplete_extend l r m chunk :
  incomplete_at_index l r ->
  l !! Z.to_nat r = Some m ->
  incomplete_at_index
    (<[Z.to_nat r := mkMessage (type m) (content m +:+ chunk) (isComplete m)]> l) r.
Proof.
  intros H Hr i x Hl Hx.
  apply list_lookup_insert_Some in Hl as [(<- & <- & _) | (_ & Hl)].
  - apply (H (Z.to_nat r) m Hr Hx).
  - now apply (H i x).
Qed.

Lemma incomplete_start l r chunk flag :
  incomplete_at_index l r ->
  index_in_range r l = false ->
  incomplete_at_index (l ++ [mkMessage Tchunk chunk flag]) (Z.of_nat (length l)).
Proof.
  intros H Hr i x Hl Hx. apply lookup_app_Some in Hl as [Hl | [Hge Hl]].
  - destruct (H i x Hl Hx) as [-> _]. apply lookup_lt_Some in Hl.
    unfold index_in_range in Hr. apply andb_false_iff in Hr as [Hr | Hr];
      [apply Z.leb_gt in Hr | apply Z.ltb_ge in Hr]; lia.
  - apply list_lookup_singleton_Some in Hl as [Hi <-]. split; [|reflexivity].
    f_equal. lia.
Qed.

Lemma incomplete_finalize l r m :
  incomplete_at_index l r ->
  l !! Z.to_nat r = Some m ->
  incomplete_at_index
    (<[Z.to_nat r := mkMessage Tresponse (content m) (Some true)]> l) (-1).
Proof.
  intros H Hr i x Hl Hx.
  apply list_lookup_insert_Some in Hl as [(<- & <- & _) | (Hne & Hl)].
  - discriminate Hx.
  - destruct (H i x Hl Hx) as [-> _]. rewrite Nat2Z.id in Hne. contradiction.
Qed.

Lemma in_range_lookup r (l : list InternalMessage) :
  index_in_range r l = true -> exists m, l !! Z.to_nat r = Some m.
Proof.
  intros H. apply index_in_range_lt in H. apply lookup_lt_is_Some in H as [m Hm]. eauto.
Qed.

Lemma Inv_frame s s' :
  chatMessages s' = chatMessages s ->
  currentResponseIndexRef s' = currentResponseIndexRef s ->
  Inv s -> Inv s'.
Proof. unfold Inv. now intros -> ->. Qed.

Lemma Inv_addMessage t x s : Inv s -> Inv (addMessage t x s).
Proof.
  intros H. unfold Inv, addMessage.
  cbn [chatMessages currentResponseIndexRef setChatMessages].
  exact (incomplete_push _ _ (mkMessage t x (Some true)) H eq_refl).
Qed.

Lemma Inv_Chat_append chunk s : Inv s -> Inv (Chat.appendResponseChunk chunk s).
Proof.
  intros H. destruct (current_turn s) as [m|] eqn:E.
  - rewrite (Chat_append_current s m chunk E). apply current_turn_Some in E as [_ El].
    unfold Inv. cbn [chatMessages currentResponseIndexRef setChatMessages
                     setIsWaitingForResponse setIsStreaming].
    exact (incomplete_extend _ _ _ _ H El).
  - rewrite (Chat_append_fresh s chunk E). apply current_turn_None in E.
    unfold Inv. cbn [chatMessages currentResponseIndexRef setChatMessages
                     set_currentResponseIndexRef setIsWaitingForResponse setIsStreaming].
    exact (incomplete_start _ _ _ _ H E).
Qed.

Lemma Inv_Chat_complete s : Inv s -> Inv (Chat.completeCurrentResponse s).
Proof.
  intros H. unfold Chat.completeCurrentResponse.
  destruct (index_in_range _ _) eqn:E; [|exact H].
  destruct (in_range_lookup _ _ E) as [m Hm]. rewrite Hm.
  unfold Inv. cbn [chatMessages currentResponseIndexRef setChatMessages
                   set_currentResponseIndexRef].
  exact (incomplete_finalize _ _ _ H Hm).
Qed.

Lemma with_current_socket_frame f s :
  chatMessages (with_current_socket f s) = chatMessages s
  /\ currentResponseIndexRef (with_current_socket f s) = currentResponseIndexRef s.
Proof. unfold with_current_socket. destruct (wsRef s); split; reflexivity. Qed.

Lemma Inv_with_current_socket f s : Inv s -> Inv (with_current_socket f s).
Proof. destruct (with_current_socket_frame f s). now apply Inv_frame. Qed.

Lemma Inv_Chat_onmessage data s : Inv s -> Inv (Chat.onmessage data s).
Proof.
  intros H. unfold Chat.onmessage.
  assert (Hfin : forall x,
            Inv (addMessage Tsystem x
                   (setIsWaitingForResponse false
                      (setIsStreaming false (Chat.completeCurrentResponse s))))).
  { intros x. apply Inv_addMessage.
    eapply Inv_frame; [| |apply Inv_Chat_complete, H]; reflexivity. }
  destruct (type_is "chunk" data); [now apply Inv_Chat_append|].
  destruct (_ || _)%bool; [apply Hfin|].
  destruct (type_is "cancelled" data); [apply Hfin|].
  destruct (Js.truthy_opt (ferror data)); [|exact H].
  apply Inv_addMessage. eapply Inv_frame; [| |apply H]; reflexivity.
Qed.

Lemma Inv_Chat_connect env s : Inv s -> Inv (Chat.connect env s).
Proof.
  intros H. unfold Chat.connect. destruct (current_readyState_is OPEN s); [exact H|].
  eapply Inv_frame; [| |apply H]; reflexivity.
Qed.

Lemma Inv_Chat_send x s :
  Inv s ->
  Inv (setQuery ""
         (with_current_socket (ws_send (QueryFrame x (sessionId s)))
            (addMessage Tquery x (setIsWaitingForResponse true (setIsStreaming false s))))).
Proof.
  intros H. eapply Inv_frame; [reflexivity | reflexivity |].
  apply Inv_with_current_socket, Inv_addMessage.
  eapply Inv_frame; [| |apply H]; reflexivity.
Qed.

Lemma Inv_Chat_step env s e : Inv s -> Inv (Chat.step env s e).
Proof.
  intros H. destruct e; cbn [Chat.step].
  - now apply Inv_Chat_connect.
  - unfold Chat.disconnect. destruct (wsRef s) eqn:E; [|exact H].
    eapply Inv_frame; [| |apply (Inv_with_current_socket ws_close), H]; reflexivity.
  - eapply Inv_frame; [| |apply H]; reflexivity.
  - unfold Chat.sendQuery. destruct (_ || _)%bool; [exact H|]. now apply Inv_Chat_send.
  - destruct (suggestions_shown s); [|exact H]. unfold Chat.suggestion_onClick.
    destruct (_ || _)%bool; [exact H|].
    destruct (current_readyState_is OPEN s); [|exact H]. now apply Inv_Chat_send.
  - destruct (cancel_enabled s); [|exact H]. unfold Chat.cancelRequest.
    destruct (current_readyState_is OPEN s); [|exact H].
    apply Inv_addMessage, Inv_Chat_complete.
    eapply Inv_frame; [| |apply (Inv_with_current_socket
                                   (ws_send (CancelFlagFrame (sessionId s)))), H]; reflexivity.
  - unfold Chat.handleNewSession, Inv, addMessage.
    cbn [chatMessages currentResponseIndexRef setChatMessages set_sessionId app].
    now apply incomplete_reset.
  - destruct (socket_in CONNECTING i s); [|exact H].
    apply Inv_addMessage. eapply Inv_frame; [| |apply H]; reflexivity.
  - destruct (socket_in OPEN i s); [|exact H]. now apply Inv_Chat_onmessage.
  - destruct (socket_live i s); [|exact H].
    apply Inv_addMessage. eapply Inv_frame; [| |apply H]; reflexivity.
  - destruct (socket_live i s); [|exact H].
    eapply Inv_frame; [reflexivity | reflexivity |].
    apply Inv_addMessage. eapply Inv_frame; [| |apply H]; reflexivity.
  - destruct (timers s) as [|n]; [exact H|]. unfold Chat.reconnect.
    assert (H' : Inv (set_timers n s)) by (eapply Inv_frame; [| |apply H]; reflexivity).
    cbn [wsRef set_timers].
    destruct (wsRef s); [destruct (current_readyState_is CLOSED _)|];
      auto using Inv_Chat_connect.
Qed.

Lemma Inv_Chat_run env sid evs : Inv (Chat.run env sid evs).
Proof.
  unfold Chat.run.
  assert (H0 : Inv (initial sid)) by (intros i m Hl; discriminate Hl).
  revert H0. generalize (initial sid).
  induction evs as [|e evs IH]; intros s Hs; cbn [fold_left]; [exact Hs|].
  apply IH. now apply Inv_Chat_step.
Qed.

Lemma at_most_one (P : InternalMessage -> bool) (l : list InternalMessage) :
  (forall i j x y, l !! i = Some x -> l !! j = Some y ->
                   P x = true -> P y = true -> i = j) ->
  length (List.filter P l) <= 1.
Proof.
  induction l as [|a l IH]; intros H; cbn [List.filter]; [cbn; lia|].
  destruct (P a) eqn:Pa.
  - assert (Hnone : List.filter P l = []).
    { destruct (List.filter P l) as [|b t] eqn:F; [reflexivity|].
      assert (Hb : In b (List.filter P l)) by (rewrite F; now left).
      apply filter_In in Hb as [Hin Pb].
      apply list_elem_of_In, list_elem_of_lookup in Hin as [j Hj].
      specialize (H 0 (S j) a b eq_refl Hj Pa Pb). discriminate H. }
    rewrite Hnone. cbn. lia.
  - apply IH. intros i j x y Hi Hj Px Py.
    specialize (H (S i) (S j) x y Hi Hj Px Py). now injection H.
Qed.

(** X21. In [Chat.tsx], whatever the user, the sockets and the timers do, at
    most one assistant turn of the transcript has its completion flag
    [false], and that turn is the one at the in-progress index. *)
Lemma Chat_at_most_one_incomplete env sid evs :
  let s := Chat.run env sid evs in
  length (List.filter incomplete_assistant (chatMessages s)) <= 1
  /\ forall m, In m (List.filter incomplete_assistant (chatMessages s)) ->
               current_turn s = Some m.
Proof.
  cbv zeta. pose proof (Inv_Chat_run env sid evs) as H.
  set (s := Chat.run env sid evs) in *.
  assert (Hflag : forall m, incomplete_assistant m = true -> isComplete m = Some false).
  { intros m. unfold incomplete_assistant, incomplete.
    destruct (is_assistant m), (isComplete m) as [[|]|]; cbn; congruence. }
  split.
  - apply at_most_one. intros i j x y Hi Hj Px Py.
    destruct (H i x Hi (Hflag x Px)) as [Hi' _].
    destruct (H j y Hj (Hflag y Py)) as [Hj' _]. lia.
  - intros m Hm. apply filter_In in Hm as [Hin Pm].
    apply list_elem_of_In, list_elem_of_lookup in Hin as [i Hi].
    destruct (H i m Hi (Hflag m Pm)) as [Hr _].
    unfold current_turn. rewrite Hr, Nat2Z.id.
    assert (index_in_range (Z.of_nat i) (chatMessages s) = true) as ->; [|exact Hi].
    apply lookup_lt_Some in Hi. unfold index_in_range.
    apply andb_true_iff. split; [apply Z.leb_le | apply Z.ltb_lt]; lia.
Qed.

(** ** Finalizing a response that is in progress *)





(** In [ChatComponent.tsx] no assistant turn ever carries a completion
    flag, whatever the session goes through. *)
Lemma unflagged_push l t x :
  is_assistant (mkMessage t x (Some true)) = false ->
  unflagged l -> unflagged (l ++ [mkMessage t x (Some true)]).
Proof.
  intros Ht H m Hin Ha. apply in_app_or in Hin as [Hin | [<- | []]].
  - now apply H.
  - congruence.
Qed.

Lemma unflagged_append chunk s :
  unflagged (chatMessages s) ->
  unflagged (chatMessages (ChatComponent.appendResponseChunk chunk s)).
Proof.
  intros H. destruct (current_turn s) as [m|] eqn:E.
  - rewrite (ChatComponent_append_current s m chunk E).
    apply current_turn_Some in E as [_ El].
    cbn [chatMessages setChatMessages]. intros x Hin Ha.
    apply list_elem_of_In, list_elem_of_lookup in Hin as [i Hi].
    apply list_lookup_insert_Some in Hi as [(_ & <- & _) | (_ & Hi)].
    + apply (H m); [|exact Ha]. apply list_elem_of_In, list_elem_of_lookup. eauto.
    + apply (H x); [|exact Ha]. apply list_elem_of_In, list_elem_of_lookup. eauto.
  - rewrite (ChatComponent_append_fresh s chunk E).
    cbn [chatMessages setChatMessages]. intros x Hin Ha.
    apply in_app_or in Hin as [Hin | [<- | []]]; [now apply H | reflexivity].
Qed.

Lemma ChatComponent_complete_frame s :
  chatMessages (ChatComponent.completeCurrentResponse s) = chatMessages s.
Proof.
  unfold ChatComponent.completeCurrentResponse.
  now destruct (0 <=? _)%Z.
Qed.

Lemma unflagged_onmessage data s :
  unflagged (chatMessages s) ->
  unflagged (chatMessages (ChatComponent.onmessage data s)).
Proof.
  intros H. unfold ChatComponent.onmessage.
  assert (Hfin : forall x,
            unflagged (chatMessages
              (addMessage Tsystem x
                 (setIsWaitingForResponse false
                    (setIsStreaming false (ChatComponent.completeCurrentResponse s)))))).
  { intros x. unfold addMessage.
    cbn [chatMessages setChatMessages setIsWaitingForResponse setIsStreaming].
    rewrite ChatComponent_complete_frame. now apply unflagged_push. }
  destruct (type_is "chunk" data); [now apply unflagged_append|].
  destruct (_ || _)%bool; [apply Hfin|].
  destruct (type_is "cancelled" data); [apply Hfin|].
  destruct (Js.truthy_opt (ferror data)); [|exact H].
  now apply unflagged_push.
Qed.

Lemma unflagged_step env s e :
  unflagged (chatMessages s) ->
  unflagged (chatMessages (ChatComponent.step env s e)).
Proof.
  intros H. destruct e; cbn [ChatComponent.step].
  - unfold ChatComponent.connect. now destruct (current_readyState_is OPEN s).
  - unfold ChatComponent.disconnect, with_current_socket. now destruct (wsRef s).
  - exact H.
  - unfold ChatComponent.sendQuery. destruct (_ || _)%bool; [exact H|].
    cbn [chatMessages setQuery]. rewrite (proj1 (with_current_socket_frame _ _)).
    now apply unflagged_push.
  - destruct (suggestions_shown s); [|exact H]. unfold ChatComponent.suggestion_onClick.
    destruct (_ || _)%bool; [exact H|].
    destruct (current_readyState_is OPEN _); [|exact H].
    cbn [chatMessages setQuery]. rewrite (proj1 (with_current_socket_frame _ _)).
    now apply unflagged_push.
  - destruct (cancel_enabled s); [|exact H]. unfold ChatComponent.cancelRequest.
    destruct (negb _); [exact H|]. unfold addMessage.
    cbn [chatMessages setChatMessages]. rewrite (proj1 (with_current_socket_frame _ _)).
    now apply unflagged_push.
  - unfold ChatComponent.handleNewSession, addMessage.
    cbn [chatMessages setChatMessages setIsWaitingForResponse setIsStreaming
         setQuery set_sessionId].
    now apply (unflagged_push []); [|intros m []].
  - destruct (socket_in CONNECTING i s); [|exact H]. now apply unflagged_push.
  - destruct (socket_in OPEN i s); [|exact H]. now apply unflagged_onmessage.
  - destruct (socket_live i s); [|exact H]. now apply unflagged_push.
  - destruct (socket_live i s); [|exact H]. now apply unflagged_push.
  - destruct (timers s) as [|n]; [exact H|]. unfold ChatComponent.reconnect.
    cbn [wsRef set_timers]. unfold ChatComponent.connect.
    destruct (wsRef s); [destruct (current_readyState_is CLOSED _)|];
      try exact H; now destruct (current_readyState_is OPEN _).
Qed.

(** X22. In [ChatComponent.tsx], on every sequence of events, no assistant
    turn of the transcript carries a completion flag. *)
Lemma ChatComponent_never_flags env sid evs :
  unflagged (chatMessages (ChatComponent.run env sid evs)).
Proof.
  unfold ChatComponent.run.
  assert (H0 : unflagged (chatMessages (initial sid))) by (intros m []).
  revert H0. generalize (initial sid).
  induction evs as [|e evs IH]; intros s Hs; cbn [fold_left]; [exact Hs|].
  apply IH. now apply unflagged_step.
Qed.

(** ** Endpoint and teardown *)

(** X24. On a page served over [https:], [Chat.tsx] opens [wss://]: built from
    the host when no endpoint is configured, and with the scheme of a
    configured [ws://] endpoint replaced. *)
Lemma Chat_wsUrl_secure env :
  location_protocol env = "https:" ->
  (Js.truthy_opt (VITE_WEB_SOCKET_URL env) = false ->
   Chat.wsUrl env =
     "wss://" +:+ Js.or_else (VITE_API_HOST env) "localhost:8000" +:+ "/ws/query")
  /\ (forall rest, VITE_WEB_SOCKET_URL env = Some ("ws://" +:+ rest) ->
                   Chat.wsUrl env = "wss://" +:+ rest).
Proof.
  intros Hp. unfold Chat.wsUrl. rewrite Hp. split.
  - destruct (VITE_WEB_SOCKET_URL env) as [u|]; cbn [Js.truthy_opt]; [|reflexivity].
    intros ->. reflexivity.
  - intros rest ->. destruct rest; vm_compute; reflexivity.
Qed.

(** [ChatComponent.tsx] does not look at the page's scheme at all. *)
Lemma ChatComponent_wsUrl_ignores_protocol p p' u h :
  ChatComponent.wsUrl (mkEnv p u h) = ChatComponent.wsUrl (mkEnv p' u h).
Proof. reflexivity. Qed.

Lemma connect_opens c env s :
  current_readyState_is OPEN s = false ->
  connect_of c env s =
  open_socket (match c with
               | ChatComponent_tsx => ChatComponent.wsUrl env
               | Chat_tsx => Chat.wsUrl env
               end) s.
Proof.
  intros H. destruct c; cbn; unfold ChatComponent.connect, Chat.connect; now rewrite H.
Qed.

(** [disconnect()] leaves every pending reconnect timer in place, and a
    timer that elapses while [wsRef] is empty constructs a socket. *)
Lemma teardown_keeps_timers c s :
  timers (disconnect_of c s) = timers s /\ wsRef (disconnect_of c s) = None.
Proof.
  destruct c; cbn; unfold ChatComponent.disconnect, Chat.disconnect, with_current_socket;
    destruct (wsRef s) eqn:E; split; try reflexivity; exact E.
Qed.

Lemma timer_reconnects c env s n :
  timers s = S n ->
  wsRef s = None ->
  let s' := step_of c env s TimerFire in
  length (sockets s') = S (length (sockets s))
  /\ wsRef s' = Some (length (sockets s)).
Proof.
  intros Ht Hw. cbv zeta.
  destruct c; cbn [step_of ChatComponent.step Chat.step]; rewrite Ht;
    unfold ChatComponent.reconnect, Chat.reconnect; cbn [wsRef set_timers]; rewrite Hw;
    unfold ChatComponent.connect, Chat.connect, current_readyState_is, current_socket;
    cbn [wsRef set_timers]; rewrite Hw; unfold open_socket;
    cbn [sockets wsRef set_wsRef set_sockets set_timers]; rewrite length_app;
    cbn [length]; (split; [lia | reflexivity]).
Qed.

(** ** Where the components depart from the specification *)

(** C3, in [ChatComponent.tsx].  After "He" has arrived and the response
    has ended, the assistant turn still has type [chunk] and carries no
    completion flag: [completeCurrentResponse] of this file only resets
    the index and the two flags.  In [Chat.tsx] an [end] that arrives
    after a new chat was started mid-stream finds the index out of range
    and leaves it at 2 instead of clearing it. *)
Theorem C3_turn_not_marked_complete :
  (let s := run_of ChatComponent_tsx secure_page "session-1"
              (first_fragment ++ [SocketMessage 0 end_frame]) in
   chatMessages s !! 2 = Some (mkMessage Tchunk "He" None)
   /\ currentResponseIndexRef s = (-1)%Z
   /\ isStreaming s = false /\ isWaitingForResponse s = false)
  /\ (let s := run_of Chat_tsx secure_page "session-1"
                 (first_fragment ++ [NewSessionClick "session-2"; SocketMessage 0 end_frame]) in
      currentResponseIndexRef s = 2%Z).
Proof. split; vm_compute; repeat split; reflexivity. Qed.

(** C2, in [Chat.tsx].  A new chat is started while "He" is on screen,
    the response ends and "B" is asked.  No assistant turn is incomplete
    (there is none at all), yet the index left at 2 now resolves to the
    user turn "B": the next chunk "Hi" is appended to the text of that
    user turn and no assistant turn is started.  In [ChatComponent.tsx]
    two responses leave two assistant turns, neither marked complete. *)
Theorem C2_chunk_joins_user_turn :
  (let s := run_of Chat_tsx secure_page "session-1" new_chat_mid_stream in
   List.filter incomplete_assistant (chatMessages s) = []
   /\ List.filter is_assistant (chatMessages s) = []
   /\ chatMessages s !! 2 = Some (mkMessage Tquery "B" (Some true))
   /\ currentResponseIndexRef s = 2%Z
   /\ chatMessages (onmessage_of Chat_tsx (chunk_frame "Hi") s) =
        [mkMessage Tsystem "--- New Session Started ---" (Some true);
         mkMessage Tsystem "--- End of Response ---" (Some true);
         mkMessage Tquery "BHi" (Some true)])
  /\ List.filter (fun m => (is_assistant m && negb (marked_complete m))%bool)
       (chatMessages (run_of ChatComponent_tsx secure_page "session-1" two_responses))
     = [mkMessage Tchunk "He" None; mkMessage Tchunk "Hi" None].
Proof. split; vm_compute; repeat split; reflexivity. Qed.

(** C4.  [disconnect()] closes the socket and clears [wsRef] but cancels
    no timer, and the timer callback reconnects whenever [wsRef] is
    empty.  Unmounting an open session therefore ends, once the socket
    has reported its closure and the timer has elapsed, with a second
    socket being connected; and a timer that was already pending at
    unmount time does the same.  Both files behave alike. *)
Theorem C4_reconnect_after_teardown (c : Component) :
  (let s := run_of c secure_page "session-1" [Mount; SocketOpen 0; Unmount] in
   wsRef s = None /\ (readyState <$> sockets s) = [CLOSING])
  /\ (let s := run_of c secure_page "session-1" unmount_then_timer in
      wsRef s = Some 1 /\ (readyState <$> sockets s) = [CLOSED; CONNECTING])
  /\ (let s := run_of c secure_page "session-1" drop_then_unmount in
      wsRef s = Some 1 /\ (readyState <$> sockets s) = [CLOSED; CONNECTING]).
Proof. destruct c; vm_compute; repeat split; reflexivity. Qed.

(** C5, in [ChatComponent.tsx].  On a page served over [https:] the
    socket is opened to the configured [ws://] endpoint as it stands, and
    to the [ws://] default when nothing is configured; [Chat.tsx] opens
    [wss://] in both cases. *)
Theorem C5_insecure_scheme_kept :
  (url <$> current_socket (ChatComponent.connect secure_page (initial "session-1")))
    = Some "ws://api.example.com/ws/query"
  /\ (url <$> current_socket
        (ChatComponent.connect (mkEnv "https:" None None) (initial "session-1")))
     = Some "ws://localhost:8000/ws/query"
  /\ (url <$> current_socket (Chat.connect secure_page (initial "session-1")))
     = Some "wss://api.example.com/ws/query"
  /\ (url <$> current_socket
        (Chat.connect (mkEnv "https:" None None) (initial "session-1")))
     = Some "wss://localhost:8000/ws/query".
Proof. vm_compute; repeat split; reflexivity. Qed.

(** * Further properties of the session *)

(** ** Outbound frames *)

Lemma alter_at {A} (f : A -> A) (l : list A) i x :
  l !! i = Some x -> alter f i l = <[i := f x]> l.
Proof.
  revert i. induction l as [|a l IH]; intros [|i] H; try discriminate H.
  - injection H as ->. reflexivity.
  - cbn. f_equal. now apply IH.
Qed.

Lemma current_open s i w :
  wsRef s = Some i -> sockets s !! i = Some w -> readyState w = OPEN ->
  current_readyState_is OPEN s = true.
Proof.
  intros Hr Hl Ho. unfold current_readyState_is, current_socket. now rewrite Hr, Hl, Ho.
Qed.

Lemma send_on_current f s i w :
  wsRef s = Some i -> sockets s !! i = Some w -> readyState w = OPEN ->
  with_current_socket (ws_send f) s = set_sockets (<[i := queued f w]> (sockets s)) s.
Proof.
  intros Hr Hl Ho. unfold with_current_socket. rewrite Hr.
  rewrite (alter_at _ _ _ _ Hl). unfold ws_send, queued. now rewrite Ho.
Qed.

Lemma sendQuery_on_open (c : Component) (s : State) (i : nat) (w : WebSocket) :
  Js.trim (query s) <> "" ->
  wsRef s = Some i -> sockets s !! i = Some w -> readyState w = OPEN ->
  sendQuery_of c s =
  mkState (connected s)
          (chatMessages s ++ [mkMessage Tquery (query s) (Some true)])
          "" false true (sessionId s) (wsRef s) (currentResponseIndexRef s)
          (<[i := queued (QueryFrame (query s) (sessionId s)) w]> (sockets s))
          (timers s).
Proof.
  intros Hq Hr Hl Ho.
  assert (G : (negb (Js.truthy (Js.trim (query s)))
               || negb (current_readyState_is OPEN s))%bool = false).
  { rewrite (current_open s i w Hr Hl Ho). unfold Js.truthy.
    destruct (String.eqb_spec (Js.trim (query s)) ""); [contradiction | reflexivity]. }
  assert (Hsend : forall s2,
            wsRef s2 = wsRef s -> sockets s2 = sockets s ->
            with_current_socket (ws_send (QueryFrame (query s) (sessionId s))) s2
            = set_sockets (<[i := queued (QueryFrame (query s) (sessionId s)) w]> (sockets s)) s2).
  { intros s2 H1 H2. rewrite (send_on_current _ s2 i w); rewrite ?H1, ?H2; auto. }
  destruct c; cbn [sendQuery_of]; unfold ChatComponent.sendQuery, Chat.sendQuery;
    rewrite G; cbv zeta; rewrite Hsend by reflexivity; reflexivity.
Qed.

(** X1. A query that is not blank, submitted while the socket behind
    [wsRef] is open, appends one user turn holding the query as typed
    (untrimmed), puts one frame [{query, sessionId}] at the end of that
    socket's queue and of no other, raises waiting, lowers streaming and
    clears the input; the in-progress index and the connection are not
    touched. *)
Theorem sendQuery_sends (c : Component) (s : State) (i : nat) (w : WebSocket) :
  Js.trim (query s) <> "" ->
  wsRef s = Some i -> sockets s !! i = Some w -> readyState w = OPEN ->
  sendQuery_of c s =
  mkState (connected s)
          (chatMessages s ++ [mkMessage Tquery (query s) (Some true)])
          "" false true (sessionId s) (wsRef s) (currentResponseIndexRef s)
          (<[i := queued (QueryFrame (query s) (sessionId s)) w]> (sockets s))
          (timers s).
Proof. apply sendQuery_on_open. Qed.

Lemma sendQuery_sends_witness :
  let s := setQuery " A " (run_of Chat_tsx secure_page "session-1" [Mount; SocketOpen 0]) in
  (sent <$> sockets (sendQuery_of Chat_tsx s)) = [[QueryFrame " A " "session-1"]]
  /\ last (chatMessages (sendQuery_of Chat_tsx s)) = Some (mkMessage Tquery " A " (Some true)).
Proof.
  cbv zeta.
  rewrite (sendQuery_sends Chat_tsx _ 0
             (mkWebSocket "wss://api.example.com/ws/query" OPEN []));
    [split; reflexivity | vm_compute; discriminate | reflexivity..].
Defined.

(** X2. [cancelRequest] is a no-op unless the socket behind [wsRef] is
    open.  When it is, both flags are cleared, one cancel frame carrying
    the session id goes to the end of that socket's queue, and one system
    notice is appended: [ChatComponent.tsx] sends [{type: 'cancel'}] and
    leaves the turns and the in-progress index alone, [Chat.tsx] sends
    [{cancel: true}] and finalizes the turn in progress first. *)
Theorem cancelRequest_effect (c : Component) (s : State) :
  (current_readyState_is OPEN s = false -> cancelRequest_of c s = s)
  /\ (forall i w,
        wsRef s = Some i -> sockets s !! i = Some w -> readyState w = OPEN ->
        let s' := cancelRequest_of c s in
        isStreaming s' = false
        /\ isWaitingForResponse s' = false
        /\ sockets s' = <[i := queued (cancel_frame_of c (sessionId s)) w]> (sockets s)
        /\ match c with
           | ChatComponent_tsx =>
               chatMessages s' =
                 chatMessages s ++ [mkMessage Tsystem "--- Cancellation requested ---" (Some true)]
               /\ currentResponseIndexRef s' = currentResponseIndexRef s
           | Chat_tsx =>
               chatMessages s' =
                 chatMessages (Chat.completeCurrentResponse s)
                 ++ [mkMessage Tsystem "--- Request cancelled by user ---" (Some true)]
               /\ currentResponseIndexRef s'
                  = currentResponseIndexRef (Chat.completeCurrentResponse s)
           end).
Proof.
  split.
  - intros H. destruct c; cbn; unfold ChatComponent.cancelRequest, Chat.cancelRequest;
      now rewrite H.
  - intros i w Hr Hl Ho. pose proof (current_open s i w Hr Hl Ho) as Hop. cbv zeta.
    destruct c; cbn [cancelRequest_of cancel_frame_of];
      unfold ChatComponent.cancelRequest, Chat.cancelRequest; rewrite Hop; cbv zeta.
    + cbn [negb]. rewrite (send_on_current _ _ i w) by assumption.
      repeat split; reflexivity.
    + rewrite (send_on_current _ s i w) by assumption.
      unfold Chat.completeCurrentResponse.
      cbn [chatMessages currentResponseIndexRef setIsWaitingForResponse setIsStreaming
           set_sockets].
      destruct (index_in_range _ _); repeat split; reflexivity.
Qed.

Lemma cancelRequest_effect_witness :
  let s := run_of Chat_tsx secure_page "session-1" first_fragment in
  (sent <$> sockets (cancelRequest_of Chat_tsx s))
    = [[QueryFrame "A" "session-1"; CancelFlagFrame "session-1"]]
  /\ cancelRequest_of ChatComponent_tsx (initial "session-1") = initial "session-1".
Proof.
  cbv zeta. split.
  - destruct (cancelRequest_effect Chat_tsx
                (run_of Chat_tsx secure_page "session-1" first_fragment)) as [_ H].
    destruct (H 0 (mkWebSocket "wss://api.example.com/ws/query" OPEN
                     [QueryFrame "A" "session-1"]) eq_refl eq_refl eq_refl)
      as (_ & _ & Hs & _).
    rewrite Hs. reflexivity.
  - apply cancelRequest_effect. reflexivity.
Defined.

(** X3. Starting a new chat keeps the connection: socket store, handle,
    connected flag and timers are untouched, the transcript is exactly
    one system notice, and the next query that is submitted goes out on
    the same socket under the new session id. *)
Theorem handleNewSession_keeps_connection
        (c : Component) (newId q : string) (s : State) (i : nat) (w : WebSocket) :
  Js.trim q <> "" ->
  wsRef s = Some i -> sockets s !! i = Some w -> readyState w = OPEN ->
  let s1 := handleNewSession_of c newId s in
  let s2 := sendQuery_of c (setQuery q s1) in
  connection s1 = connection s
  /\ sockets s1 = sockets s
  /\ sessionId s1 = newId
  /\ length (chatMessages s1) = 1
  /\ Forall (fun m => type m = Tsystem) (chatMessages s1)
  /\ sockets s2 = <[i := queued (QueryFrame q newId) w]> (sockets s)
  /\ chatMessages s2 = chatMessages s1 ++ [mkMessage Tquery q (Some true)].
Proof.
  intros Hq Hr Hl Ho. cbv zeta.
  set (s1 := handleNewSession_of c newId s).
  assert (H1 : wsRef s1 = wsRef s /\ sockets s1 = sockets s /\ sessionId s1 = newId
               /\ connection s1 = connection s)
    by (destruct c; repeat split; reflexivity).
  destruct H1 as (Hw1 & Hs1 & Hid & Hc).
  pose proof (sendQuery_on_open c (setQuery q s1) i w) as Hsend.
  cbn [query wsRef sockets sessionId chatMessages connected timers
       currentResponseIndexRef setQuery] in Hsend.
  rewrite Hw1, Hs1, Hid in Hsend. rewrite (Hsend Hq Hr Hl Ho).
  cbn [sockets chatMessages].
  repeat split; try assumption; try reflexivity.
  - destruct c; reflexivity.
  - destruct c; repeat constructor.
Qed.

Lemma handleNewSession_keeps_connection_witness :
  let s := run_of Chat_tsx secure_page "session-1" first_fragment in
  let s2 := sendQuery_of Chat_tsx (setQuery "B" (handleNewSession_of Chat_tsx "session-2" s)) in
  (sent <$> sockets s2) = [[QueryFrame "A" "session-1"; QueryFrame "B" "session-2"]].
Proof.
  cbv zeta.
  destruct (handleNewSession_keeps_connection Chat_tsx "session-2" "B"
              (run_of Chat_tsx secure_page "session-1" first_fragment) 0
              (mkWebSocket "wss://api.example.com/ws/query" OPEN [QueryFrame "A" "session-1"]))
    as (_ & _ & _ & _ & _ & Hs & _);
    [vm_compute; discriminate | reflexivity.. |].
  rewrite Hs. reflexivity.
Defined.

(** X4. Clicking a suggestion card does what typing the suggestion and
    submitting would do.  In [ChatComponent.tsx] this holds whenever the
    click handler gets past its own guard (connected, not streaming); in
    [Chat.tsx], which does not put the suggestion in the input first, it
    holds when the socket is open as well. *)
Theorem suggestion_is_typed_query (c : Component) (g : string) (s : State) :
  Js.trim g <> "" ->
  connected s = true -> isStreaming s = false ->
  (c = Chat_tsx -> current_readyState_is OPEN s = true) ->
  suggestion_onClick_of c g s = sendQuery_of c (setQuery g s).
Proof.
  intros Hg Hc Hs Hopen.
  assert (Ht : negb (Js.truthy (Js.trim g)) = false).
  { unfold Js.truthy. destruct (String.eqb_spec (Js.trim g) ""); [contradiction | reflexivity]. }
  destruct c; cbn [suggestion_onClick_of sendQuery_of];
    unfold ChatComponent.suggestion_onClick, Chat.suggestion_onClick,
           ChatComponent.sendQuery, Chat.sendQuery;
    rewrite Hc, Hs; cbn [negb orb query setQuery]; rewrite Ht; cbn [orb].
  - change (current_readyState_is OPEN (setQuery g s)) with (current_readyState_is OPEN s).
    destruct (current_readyState_is OPEN s); [|reflexivity].
    cbn [negb]. unfold with_current_socket.
    cbn [wsRef addMessage setChatMessages setIsWaitingForResponse setIsStreaming setQuery].
    destruct (wsRef s); reflexivity.
  - change (current_readyState_is OPEN (setQuery g s)) with (current_readyState_is OPEN s).
    rewrite (Hopen eq_refl). cbn [negb]. unfold with_current_socket.
    cbn [wsRef addMessage setChatMessages setIsWaitingForResponse setIsStreaming setQuery].
    destruct (wsRef s); reflexivity.
Qed.

Lemma suggestion_is_typed_query_witness :
  let s := run_of ChatComponent_tsx secure_page "session-1" [Mount; SocketOpen 0] in
  suggestion_onClick_of ChatComponent_tsx "Which drugs?" s
  = sendQuery_of ChatComponent_tsx (setQuery "Which drugs?" s).
Proof.
  cbv zeta. apply suggestion_is_typed_query;
    [vm_compute; discriminate | reflexivity | reflexivity | discriminate].
Defined.

(** ** One connection at a time *)

Lemma readyState_alter (g : WebSocket -> WebSocket) i (l : list WebSocket) :
  (forall w, readyState (g w) = readyState w) ->
  (readyState <$> alter g i l) = (readyState <$> l).
Proof.
  intros Hg. apply list_eq. intros j. rewrite !list_lookup_fmap.
  destruct (decide (i = j)) as [->|Hne].
  - rewrite list_lookup_alter_eq. destruct (l !! j); cbn; [now rewrite Hg | reflexivity].
  - now rewrite list_lookup_alter_ne.
Qed.

Lemma readyState_ws_send f w : readyState (ws_send f w) = readyState w.
Proof. unfold ws_send. destruct (readyState w) eqn:E; cbn; congruence. Qed.

Lemma connection_send f s :
  connection (with_current_socket (ws_send f) s) = connection s.
Proof.
  unfold with_current_socket, connection. destruct (wsRef s) eqn:E; [|now rewrite E].
  cbn [wsRef timers connected sockets set_sockets].
  now rewrite E, readyState_alter by apply readyState_ws_send.
Qed.

Lemma connection_eq s s' :
  wsRef s' = wsRef s -> timers s' = timers s -> connected s' = connected s ->
  sockets s' = sockets s -> connection s' = connection s.
Proof. unfold connection. now intros -> -> -> ->. Qed.

Lemma connection_sendQuery c s : connection (sendQuery_of c s) = connection s.
Proof.
  destruct c; cbn [sendQuery_of]; unfold ChatComponent.sendQuery, Chat.sendQuery;
    (destruct (_ || _)%bool; [reflexivity|]); cbv zeta;
    match goal with
    | |- connection (setQuery _ (with_current_socket ?f ?x)) = _ =>
        transitivity (connection (with_current_socket f x));
        [reflexivity | now rewrite connection_send]
    end.
Qed.

Lemma connection_cancelRequest c s : connection (cancelRequest_of c s) = connection s.
Proof.
  destruct c; cbn [cancelRequest_of]; unfold ChatComponent.cancelRequest, Chat.cancelRequest.
  - destruct (negb _); [reflexivity|]. cbv zeta.
    match goal with
    | |- connection (addMessage _ _ (with_current_socket ?f ?x)) = _ =>
        transitivity (connection (with_current_socket f x));
        [reflexivity | now rewrite connection_send]
    end.
  - destruct (current_readyState_is OPEN s); [|reflexivity]. cbv zeta.
    rewrite <- (connection_send (CancelFlagFrame (sessionId s)) s).
    unfold Chat.completeCurrentResponse.
    cbn [chatMessages currentResponseIndexRef setIsWaitingForResponse setIsStreaming].
    destruct (index_in_range _ _); reflexivity.
Qed.

Lemma connection_suggestion c g s :
  connection (suggestion_onClick_of c g s) = connection s.
Proof.
  destruct c; cbn [suggestion_onClick_of];
    unfold ChatComponent.suggestion_onClick, Chat.suggestion_onClick;
    (destruct (_ || _)%bool; [reflexivity|]); cbv zeta;
    (destruct (current_readyState_is OPEN _); [|reflexivity]);
    match goal with
    | |- connection (setQuery _ (with_current_socket ?f ?x)) = _ =>
        transitivity (connection (with_current_socket f x));
        [reflexivity | now rewrite connection_send]
    end.
Qed.

Lemma connection_onmessage c data s : connection (onmessage_of c data s) = connection s.
Proof.
  destruct c; cbn [onmessage_of]; unfold ChatComponent.onmessage, Chat.onmessage;
    repeat match goal with
           | |- context [if ?b then _ else _] =>
               match b with
               | type_is _ _ => destruct b
               | (_ || _)%bool => destruct b
               | Js.truthy_opt _ => destruct b
               end
           end;
    try reflexivity;
    unfold ChatComponent.appendResponseChunk, Chat.appendResponseChunk,
           ChatComponent.completeCurrentResponse, Chat.completeCurrentResponse;
    cbn [chatMessages currentResponseIndexRef setIsWaitingForResponse setIsStreaming];
    repeat match goal with
           | |- context [if ?b then _ else _] => destruct b
           | |- context [match ?x with Some _ => _ | None => _ end] => destruct x
           end;
    reflexivity.
Qed.

(** The events that do not come from a socket or a timer leave the
    connection side of the session alone. *)
Lemma connection_user_event c env s e :
  match e with
  | InputChange _ | Submit | SuggestionClick _ | CancelClick
  | NewSessionClick _ | SocketMessage _ _ => True
  | _ => False
  end ->
  connection (step_of c env s e) = connection s.
Proof.
  intros He. destruct e; try contradiction.
  - destruct c; reflexivity.
  - destruct c; [apply (connection_sendQuery ChatComponent_tsx)
                | apply (connection_sendQuery Chat_tsx)].
  - destruct c; cbn [step_of ChatComponent.step Chat.step];
      (destruct (suggestions_shown s); [|reflexivity]);
      [apply (connection_suggestion ChatComponent_tsx)
      | apply (connection_suggestion Chat_tsx)].
  - destruct c; cbn [step_of ChatComponent.step Chat.step];
      (destruct (cancel_enabled s); [|reflexivity]);
      [apply (connection_cancelRequest ChatComponent_tsx)
      | apply (connection_cancelRequest Chat_tsx)].
  - destruct c; reflexivity.
  - destruct c; cbn [step_of ChatComponent.step Chat.step];
      (destruct (socket_in OPEN i s); [|reflexivity]);
      [apply (connection_onmessage ChatComponent_tsx)
      | apply (connection_onmessage Chat_tsx)].
Qed.

Lemma length_sockets_of_connection s s' :
  connection s' = connection s -> length (sockets s') = length (sockets s).
Proof.
  unfold connection. intros H. injection H as _ _ _ H.
  apply (f_equal length) in H. now rewrite !length_fmap in H.
Qed.

Lemma one_connection_transfer s s' :
  connection s' = connection s -> one_connection s -> one_connection s'.
Proof.
  intros H (k & r & Hw & Hlen & Hk & Hold & Ht & Hc).
  pose proof (length_sockets_of_connection s s' H) as Hl.
  unfold connection in H. injection H as Hw' Ht' Hc' Hrs.
  exists k, r. rewrite Hw', Ht', Hc', Hrs, Hl. auto 10.
Qed.

Lemma socket_in_lookup r i s :
  socket_in r i s = true -> (readyState <$> sockets s) !! i = Some r.
Proof.
  unfold socket_in. rewrite list_lookup_fmap.
  destruct (sockets s !! i) as [w|]; [|discriminate]. cbn.
  destruct (readyState w), r; cbn; congruence.
Qed.

Lemma socket_live_lookup i s :
  socket_live i s = true ->
  exists r, (readyState <$> sockets s) !! i = Some r /\ is_closed r = false.
Proof.
  unfold socket_live. rewrite list_lookup_fmap.
  destruct (sockets s !! i) as [w|]; [|discriminate]. cbn.
  intros H. exists (readyState w). split; [reflexivity|].
  unfold is_closed. now destruct (readyState_eqb (readyState w) CLOSED).
Qed.

(** Under [one_connection], a socket that is not closed is the newest. *)
Lemma live_is_newest s k r i v :
  length (sockets s) = S k ->
  (readyState <$> sockets s) !! k = Some r ->
  (forall j v, j < k -> (readyState <$> sockets s) !! j = Some v -> v = CLOSED) ->
  (readyState <$> sockets s) !! i = Some v -> is_closed v = false ->
  i = k /\ v = r.
Proof.
  intros Hlen Hk Hold Hi Hv.
  assert (i < S k) by (apply lookup_lt_Some in Hi; rewrite length_fmap in Hi; lia).
  destruct (decide (i = k)) as [->|Hne].
  - split; [reflexivity | congruence].
  - assert (v = CLOSED) by (apply (Hold i); [lia | exact Hi]). subst v. discriminate Hv.
Qed.

Lemma readyState_mark r i s :
  (readyState <$> sockets (mark_socket r i s)) = <[i := r]> (readyState <$> sockets s).
Proof.
  unfold mark_socket. cbn [sockets set_sockets].
  apply list_eq. intros j. rewrite list_lookup_fmap.
  destruct (decide (i = j)) as [->|Hne].
  - rewrite list_lookup_alter_eq, list_lookup_insert, list_lookup_fmap, length_fmap.
    destruct (sockets s !! j) as [w|] eqn:E; cbn.
    + apply lookup_lt_Some in E. destruct (decide _) as [_|[]]; [reflexivity | auto].
    + apply lookup_ge_None in E. destruct (decide _) as [[_ ?]|_]; [lia | reflexivity].
  - rewrite list_lookup_alter_ne by exact Hne.
    rewrite list_lookup_insert_ne by exact Hne. now rewrite list_lookup_fmap.
Qed.

Lemma one_connection_step c env s e :
  no_remount e = true -> one_connection s -> one_connection (step_of c env s e).
Proof.
  intros He Hinv.
  destruct e; try discriminate He;
    try (apply (one_connection_transfer s); [now apply connection_user_event | exact Hinv]).
  - (* SocketOpen *)
    assert (Hstep : step_of c env s (SocketOpen i)
                    = if socket_in CONNECTING i s
                      then addMessage Tsystem "Connected to WebSocket"
                             (setConnected true (mark_socket OPEN i s))
                      else s) by (destruct c; reflexivity).
    rewrite Hstep. destruct (socket_in CONNECTING i s) eqn:E; [|exact Hinv].
    destruct Hinv as (k & r & Hw & Hlen & Hk & Hold & Ht & Hc).
    apply socket_in_lookup in E.
    destruct (live_is_newest s k r i CONNECTING Hlen Hk Hold E eq_refl) as [-> <-].
    exists k, OPEN.
    cbn [wsRef timers connected sockets addMessage setChatMessages setConnected].
    change (sockets (mark_socket OPEN k s)) with (alter (set_readyState OPEN) k (sockets s)).
    pose proof (readyState_mark OPEN k s) as Hm. unfold mark_socket in Hm.
    cbn [sockets set_sockets] in Hm.
    unfold mark_socket. cbn [wsRef timers sockets set_sockets].
    rewrite Hm, length_alter.
    repeat split; auto.
    + apply list_lookup_insert_eq. rewrite length_fmap. lia.
    + intros j v Hj Hv. rewrite list_lookup_insert_ne in Hv by lia. now apply (Hold j).
  - (* SocketError *)
    assert (Hstep : step_of c env s (SocketError i)
                    = if socket_live i s
                      then addMessage Terror "WebSocket Error: [object Event]"
                             (setConnected false s)
                      else s) by (destruct c; reflexivity).
    rewrite Hstep. destruct (socket_live i s); [|exact Hinv].
    destruct Hinv as (k & r & Hw & Hlen & Hk & Hold & Ht & Hc).
    exists k, r. repeat split; auto. discriminate.
  - (* SocketClose *)
    assert (Hstep : step_of c env s (SocketClose i)
                    = if socket_live i s
                      then set_timers (S (timers (mark_socket CLOSED i s)))
                             (addMessage Tsystem "Disconnected from WebSocket"
                                (setConnected false (mark_socket CLOSED i s)))
                      else s) by (destruct c; reflexivity).
    rewrite Hstep. destruct (socket_live i s) eqn:E; [|exact Hinv].
    destruct Hinv as (k & r & Hw & Hlen & Hk & Hold & Ht & Hc).
    apply socket_live_lookup in E as (v & Hv & Hlive).
    destruct (live_is_newest s k r i v Hlen Hk Hold Hv Hlive) as [-> ->].
    rewrite Hlive in Ht.
    exists k, CLOSED.
    pose proof (readyState_mark CLOSED k s) as Hm. unfold mark_socket in Hm.
    cbn [sockets set_sockets] in Hm.
    unfold mark_socket.
    cbn [wsRef timers connected sockets addMessage setChatMessages setConnected
         set_timers set_sockets].
    rewrite Hm, length_alter, Ht.
    repeat split; auto; try discriminate.
    + apply list_lookup_insert_eq. rewrite length_fmap. lia.
    + intros j v Hj Hv'. rewrite list_lookup_insert_ne in Hv' by lia. now apply (Hold j).
  - (* TimerFire *)
    destruct Hinv as (k & r & Hw & Hlen & Hk & Hold & Ht & Hc).
    assert (Hcur : current_readyState_is CLOSED (set_timers 0 s) = is_closed r
                   /\ current_readyState_is OPEN (set_timers 0 s) = readyState_eqb r OPEN).
    { unfold current_readyState_is, current_socket. cbn [wsRef sockets set_timers].
      rewrite Hw. rewrite list_lookup_fmap in Hk.
      destruct (sockets s !! k) as [w|]; [|discriminate Hk].
      injection Hk as <-. split; reflexivity. }
    destruct Hcur as [Hcl Hop].
    assert (Hstep : step_of c env s TimerFire
                    = if is_closed r
                      then open_socket (wsUrl_of c env) (set_timers 0 s)
                      else s).
    { destruct (is_closed r) eqn:Er.
      - assert (r = CLOSED) by (destruct r; cbn in Er; congruence). subst r.
        destruct c; cbn [step_of ChatComponent.step Chat.step]; rewrite Ht;
          unfold ChatComponent.reconnect, Chat.reconnect; cbn [wsRef set_timers];
          rewrite Hw, Hcl; unfold ChatComponent.connect, Chat.connect; rewrite Hop;
          reflexivity.
      - destruct c; cbn [step_of ChatComponent.step Chat.step]; now rewrite Ht. }
    rewrite Hstep. destruct (is_closed r) eqn:Er.
    + assert (r = CLOSED) by (destruct r; cbn in Er; congruence). subst r.
      exists (S k), CONNECTING. unfold open_socket.
      cbn [wsRef timers connected sockets set_wsRef set_sockets set_timers].
      rewrite fmap_app, length_app, Hlen. cbn [length fmap list_fmap].
      repeat split.
      * f_equal. lia.
      * rewrite lookup_app_r by (rewrite length_fmap; lia).
        rewrite length_fmap, Hlen, Nat.sub_diag. reflexivity.
      * intros j v Hj Hv. rewrite lookup_app_l in Hv by (rewrite length_fmap; lia).
        destruct (decide (j = k)) as [->|Hne]; [congruence|].
        apply (Hold j); [lia | exact Hv].
      * intros Hcon. specialize (Hc Hcon). discriminate Hc.
    + exists k, r. rewrite Er. auto 10.
Qed.

Lemma one_connection_mount c env sid :
  one_connection (step_of c env (initial sid) Mount).
Proof.
  exists 0, CONNECTING. destruct c; repeat split; try reflexivity; try discriminate;
    intros j v Hj; lia.
Qed.

Lemma one_connection_run c env sid evs :
  forallb no_remount evs = true ->
  one_connection (run_of c env sid (Mount :: evs)).
Proof.
  intros H.
  assert (Hrun : run_of c env sid (Mount :: evs)
                 = fold_left (step_of c env) evs (step_of c env (initial sid) Mount))
    by (destruct c; reflexivity).
  rewrite Hrun. clear Hrun. pose proof (one_connection_mount c env sid) as H0.
  revert H H0. generalize (step_of c env (initial sid) Mount).
  induction evs as [|e evs IH]; intros s H Hs; cbn [fold_left]; [exact Hs|].
  cbn [forallb] in H. apply andb_true_iff in H as [He H].
  apply IH; [exact H | now apply one_connection_step].
Qed.

Lemma filter_at_most_one {A} (P : A -> bool) (l : list A) k :
  length l = S k ->
  (forall j x, j < k -> l !! j = Some x -> P x = false) ->
  length (List.filter P l) <= 1.
Proof.
  revert k. induction l as [|a l IH]; intros k Hlen Hold; [discriminate Hlen|].
  destruct k as [|k].
  - destruct l; [|discriminate Hlen]. cbn. destruct (P a); cbn; lia.
  - cbn [List.filter]. rewrite (Hold 0 a) by (reflexivity || lia).
    apply (IH k); [cbn in Hlen; lia|].
    intros j x Hj Hx. apply (Hold (S j)); [lia | exact Hx].
Qed.

Lemma one_connection_current s :
  one_connection s ->
  exists k w, wsRef s = Some k /\ length (sockets s) = S k /\ sockets s !! k = Some w
              /\ timers s = (if is_closed (readyState w) then 1 else 0)
              /\ (connected s = true -> readyState w = OPEN)
              /\ current_socket s = Some w.
Proof.
  intros (k & r & Hw & Hlen & Hk & Hold & Ht & Hc).
  rewrite list_lookup_fmap in Hk.
  destruct (sockets s !! k) as [w|] eqn:E; [|discriminate Hk]. injection Hk as <-.
  exists k, w. unfold current_socket. rewrite Hw, E. auto 10.
Qed.

(** X5. Within one mounted lifetime (mount, then anything but unmount),
    whatever the user, the sockets and the timers do, at most one socket
    of all those the component has constructed is not closed, and it is
    the newest one, the one [wsRef] holds: reconnecting never leaves two
    connections alive. *)
Theorem at_most_one_live_socket (c : Component) (env : Env) (sid : string) (evs : list Event) :
  forallb no_remount evs = true ->
  let s := run_of c env sid (Mount :: evs) in
  length (List.filter (fun w => negb (is_closed (readyState w))) (sockets s)) <= 1
  /\ wsRef s = Some (length (sockets s) - 1).
Proof.
  intros H. cbv zeta.
  destruct (one_connection_run c env sid evs H) as (k & r & Hw & Hlen & Hk & Hold & _).
  split.
  - apply (filter_at_most_one _ _ k Hlen). intros j x Hj Hx.
    rewrite (Hold j (readyState x) Hj); [reflexivity|].
    now rewrite list_lookup_fmap, Hx.
  - rewrite Hw, Hlen. f_equal. lia.
Qed.

Lemma at_most_one_live_socket_witness :
  let s := run_of Chat_tsx secure_page "session-1"
             [Mount; SocketOpen 0; SocketClose 0; TimerFire; TimerFire; SocketOpen 1] in
  (readyState <$> sockets s) = [CLOSED; OPEN] /\ wsRef s = Some 1.
Proof.
  cbv zeta.
  destruct (at_most_one_live_socket Chat_tsx secure_page "session-1"
              [SocketOpen 0; SocketClose 0; TimerFire; TimerFire; SocketOpen 1] eq_refl)
    as [_ Hw].
  split; [reflexivity | exact Hw].
Defined.

(** X6. Within one mounted lifetime at most one reconnect timer is
    pending, and one is pending exactly while the socket behind [wsRef]
    is closed. *)
Theorem reconnect_pending_iff_closed (c : Component) (env : Env) (sid : string)
        (evs : list Event) :
  forallb no_remount evs = true ->
  let s := run_of c env sid (Mount :: evs) in
  timers s <= 1 /\ (timers s = 1 <-> current_readyState_is CLOSED s = true).
Proof.
  intros H. cbv zeta.
  destruct (one_connection_current _ (one_connection_run c env sid evs H))
    as (k & w & _ & _ & _ & Ht & _ & Hcur).
  unfold current_readyState_is. rewrite Hcur, Ht.
  fold (is_closed (readyState w)).
  destruct (is_closed (readyState w)); split; try lia; split; congruence.
Qed.

Lemma reconnect_pending_iff_closed_witness :
  timers (run_of ChatComponent_tsx secure_page "session-1"
            [Mount; SocketOpen 0; SocketClose 0; SocketClose 0]) = 1
  /\ timers (run_of ChatComponent_tsx secure_page "session-1"
               [Mount; SocketOpen 0; SocketClose 0; TimerFire; TimerFire]) = 0.
Proof.
  split.
  - apply (reconnect_pending_iff_closed ChatComponent_tsx secure_page "session-1"
             [SocketOpen 0; SocketClose 0; SocketClose 0] eq_refl). reflexivity.
  - destruct (reconnect_pending_iff_closed ChatComponent_tsx secure_page "session-1"
                [SocketOpen 0; SocketClose 0; TimerFire; TimerFire] eq_refl) as [Hle Hiff].
    destruct (timers _) as [|[|n]] eqn:E; [reflexivity | | lia].
    destruct Hiff as [Hiff _]. specialize (Hiff eq_refl). discriminate Hiff.
Defined.



(** X8. Every socket the component ever constructs, on any sequence of
    events, is opened to the one endpoint computed from the environment;
    no event changes the endpoint of a socket. *)
Theorem sockets_use_endpoint (c : Component) (env : Env) (sid : string) (evs : list Event) :
  Forall (fun w => url w = wsUrl_of c env) (sockets (run_of c env sid evs)).
Proof.
  assert (Hrun : run_of c env sid evs = fold_left (step_of c env) evs (initial sid))
    by (destruct c; reflexivity).
  rewrite Hrun. clear Hrun.
  assert (H0 : Forall (fun w => url w = wsUrl_of c env) (sockets (initial sid)))
    by constructor.
  revert H0. generalize (initial sid).
  induction evs as [|e evs IH]; intros s Hs; cbn [fold_left]; [exact Hs|].
  apply IH. clear IH.
  assert (Halter : forall g i, (forall w, url (g w) = url w) ->
            Forall (fun w => url w = wsUrl_of c env) (alter g i (sockets s))).
  { intros g i Hg. apply Forall_lookup. intros j x Hx.
    destruct (decide (i = j)) as [->|Hne].
    - rewrite list_lookup_alter_eq in Hx.
      destruct (sockets s !! j) as [y|] eqn:E; [|discriminate Hx].
      injection Hx as <-. rewrite Hg. exact (proj1 (Forall_lookup _ _) Hs j y E).
    - rewrite list_lookup_alter_ne in Hx by exact Hne.
      exact (proj1 (Forall_lookup _ _) Hs j x Hx). }
  assert (Hsend : forall f x, sockets x = sockets s ->
            Forall (fun w => url w = wsUrl_of c env)
                   (sockets (with_current_socket (ws_send f) x))).
  { intros f x Hx. unfold with_current_socket.
    destruct (wsRef x); cbn [sockets set_sockets]; rewrite Hx; [|exact Hs].
    apply Halter. intros w. unfold ws_send. now destruct (readyState w). }
  assert (Hconn : Forall (fun w => url w = wsUrl_of c env)
                         (sockets (connect_of c env s))).
  { destruct c; cbn [connect_of]; unfold ChatComponent.connect, Chat.connect;
      (destruct (current_readyState_is OPEN s); [exact Hs|]);
      unfold open_socket; cbn [sockets set_wsRef set_sockets];
      (apply Forall_app; split; [exact Hs | repeat constructor]). }
  assert (Hmsg : forall data, sockets (onmessage_of c data s) = sockets s).
  { intros data. pose proof (connection_onmessage c data s) as Hcn.
    destruct c; cbn [onmessage_of]; unfold ChatComponent.onmessage, Chat.onmessage;
      repeat match goal with
             | |- context [if ?b then _ else _] =>
                 match b with
                 | type_is _ _ => destruct b
                 | (_ || _)%bool => destruct b
                 | Js.truthy_opt _ => destruct b
                 end
             end;
      try reflexivity;
      unfold ChatComponent.appendResponseChunk, Chat.appendResponseChunk,
             ChatComponent.completeCurrentResponse, Chat.completeCurrentResponse;
      cbn [chatMessages currentResponseIndexRef setIsWaitingForResponse setIsStreaming];
      repeat match goal with
             | |- context [if ?b then _ else _] => destruct b
             | |- context [match ?x with Some _ => _ | None => _ end] => destruct x
             end;
      reflexivity. }
  destruct e.
  - destruct c; exact Hconn.
  - destruct c; cbn [step_of ChatComponent.step Chat.step];
      unfold ChatComponent.disconnect, Chat.disconnect, with_current_socket;
      (destruct (wsRef s); [|exact Hs]); cbn [sockets set_wsRef set_sockets];
      apply Halter; intros w; unfold ws_close; now destruct (readyState w).
  - destruct c; exact Hs.
  - destruct c; cbn [step_of ChatComponent.step Chat.step];
      unfold ChatComponent.sendQuery, Chat.sendQuery;
      (destruct (_ || _)%bool; [exact Hs|]); cbv zeta; cbn [sockets setQuery];
      now apply Hsend.
  - destruct c; cbn [step_of ChatComponent.step Chat.step];
      (destruct (suggestions_shown s); [|exact Hs]);
      unfold ChatComponent.suggestion_onClick, Chat.suggestion_onClick;
      (destruct (_ || _)%bool; [exact Hs|]); cbv zeta;
      (destruct (current_readyState_is OPEN _); [|exact Hs]); cbn [sockets setQuery];
      now apply Hsend.
  - destruct c; cbn [step_of ChatComponent.step Chat.step];
      (destruct (cancel_enabled s); [|exact Hs]);
      unfold ChatComponent.cancelRequest, Chat.cancelRequest.
    + destruct (negb _); [exact Hs|]. cbv zeta. cbn [sockets addMessage setChatMessages].
      now apply Hsend.
    + destruct (current_readyState_is OPEN s); [|exact Hs]. cbv zeta.
      cbn [sockets addMessage setChatMessages].
      unfold Chat.completeCurrentResponse.
      cbn [chatMessages currentResponseIndexRef setIsWaitingForResponse setIsStreaming].
      destruct (index_in_range _ _); cbn [sockets setChatMessages set_currentResponseIndexRef
                                          setIsWaitingForResponse setIsStreaming];
        now apply Hsend.
  - destruct c; exact Hs.
  - destruct c; cbn [step_of ChatComponent.step Chat.step];
      (destruct (socket_in CONNECTING i s); [|exact Hs]);
      cbn; now apply Halter.
  - destruct c; cbn [step_of ChatComponent.step Chat.step];
      (destruct (socket_in OPEN i s); [|exact Hs]);
      cbn [onmessage_of] in Hmsg; rewrite (Hmsg data); exact Hs.
  - destruct c; cbn [step_of ChatComponent.step Chat.step];
      (destruct (socket_live i s); [|exact Hs]); exact Hs.
  - destruct c; cbn [step_of ChatComponent.step Chat.step];
      (destruct (socket_live i s); [|exact Hs]);
      cbn; now apply Halter.
  - destruct c; cbn [step_of ChatComponent.step Chat.step];
      (destruct (timers s) as [|n]; [exact Hs|]);
      unfold ChatComponent.reconnect, Chat.reconnect, ChatComponent.connect, Chat.connect;
      cbn [wsRef set_timers];
      repeat match goal with
             | |- context [if ?b then _ else _] => destruct b
             | |- context [match wsRef s with Some _ => _ | None => _ end] => destruct (wsRef s)
             end;
      try exact Hs;
      unfold open_socket; cbn [sockets set_wsRef set_sockets set_timers];
      (apply Forall_app; split; [exact Hs | repeat constructor]).
Qed.

(** ** The transcript only grows *)

Lemma grows_refl l : grows l l.
Proof. intros i m H. exists m, "". now rewrite append_empty_r. Qed.

Lemma grows_trans l1 l2 l3 : grows l1 l2 -> grows l2 l3 -> grows l1 l3.
Proof.
  intros H12 H23 i m H. destruct (H12 i m H) as (m2 & x & H2 & E2).
  destruct (H23 i m2 H2) as (m3 & y & H3 & E3).
  exists m3, (x +:+ y). split; [exact H3|]. now rewrite E3, E2, append_assoc.
Qed.

Lemma grows_push l x : grows l (l ++ [x]).
Proof.
  intros i m H. exists m, "". split; [now apply lookup_app_l_Some|].
  now rewrite append_empty_r.
Qed.

Lemma grows_insert l k m t x f :
  l !! k = Some m -> grows l (<[k := mkMessage t (content m +:+ x) f]> l).
Proof.
  intros Hk i y H. destruct (decide (i = k)) as [->|Hne].
  - exists (mkMessage t (content m +:+ x) f), x. split.
    + apply list_lookup_insert_eq. now apply lookup_lt_Some in Hk.
    + cbn. congruence.
  - exists y, "". split; [now rewrite list_lookup_insert_ne by congruence|].
    now rewrite append_empty_r.
Qed.

Lemma grows_addMessage t x s l :
  grows l (chatMessages s) -> grows l (chatMessages (addMessage t x s)).
Proof. intros H. eapply grows_trans; [exact H | apply grows_push]. Qed.

Lemma grows_append c chunk s :
  grows (chatMessages s)
        (chatMessages (match c with
                       | ChatComponent_tsx => ChatComponent.appendResponseChunk chunk s
                       | Chat_tsx => Chat.appendResponseChunk chunk s
                       end)).
Proof.
  destruct (current_turn s) as [m|] eqn:E.
  - pose proof (current_turn_Some s m E) as [_ Hl].
    destruct c; [rewrite (ChatComponent_append_current s m chunk E)
                | rewrite (Chat_append_current s m chunk E)];
      cbn [chatMessages setChatMessages]; now apply grows_insert.
  - destruct c; [rewrite (ChatComponent_append_fresh s chunk E)
                | rewrite (Chat_append_fresh s chunk E)];
      cbn [chatMessages setChatMessages]; apply grows_push.
Qed.

Lemma grows_complete c s :
  grows (chatMessages s) (chatMessages (completeCurrentResponse_of c s)).
Proof.
  destruct c; cbn [completeCurrentResponse_of].
  - rewrite ChatComponent_complete_frame. apply grows_refl.
  - unfold Chat.completeCurrentResponse.
    destruct (index_in_range _ _); [|apply grows_refl].
    destruct (chatMessages s !! Z.to_nat (currentResponseIndexRef s)) as [m|] eqn:E;
      cbn [chatMessages setChatMessages]; [|apply grows_refl].
    rewrite <- (append_empty_r (content m)). now apply grows_insert.
Qed.

Lemma grows_onmessage c data s :
  grows (chatMessages s) (chatMessages (onmessage_of c data s)).
Proof.
  assert (Hfin : forall x,
            grows (chatMessages s)
              (chatMessages (addMessage Tsystem x
                 (setIsWaitingForResponse false
                    (setIsStreaming false (completeCurrentResponse_of c s)))))).
  { intros x. apply grows_addMessage. apply (grows_complete c s). }
  pose proof (grows_append c (fdata data) s) as Happ.
  destruct c; cbn [onmessage_of completeCurrentResponse_of] in *;
    unfold ChatComponent.onmessage, Chat.onmessage;
    (destruct (type_is "chunk" data); [exact Happ|]);
    (destruct (_ || _)%bool; [apply Hfin|]);
    (destruct (type_is "cancelled" data); [apply Hfin|]);
    (destruct (Js.truthy_opt (ferror data)); [|apply grows_refl]);
    apply grows_addMessage, grows_refl.
Qed.

Lemma grows_cancelRequest c s :
  grows (chatMessages s) (chatMessages (cancelRequest_of c s)).
Proof.
  destruct c; cbn [cancelRequest_of]; unfold ChatComponent.cancelRequest, Chat.cancelRequest.
  - destruct (negb _); [apply grows_refl|]. cbv zeta. apply grows_addMessage.
    rewrite (proj1 (with_current_socket_frame _ _)). apply grows_refl.
  - destruct (current_readyState_is OPEN s); [|apply grows_refl]. cbv zeta.
    apply grows_addMessage.
    pose proof (grows_complete Chat_tsx
                  (setIsWaitingForResponse false
                     (setIsStreaming false
                        (with_current_socket (ws_send (CancelFlagFrame (sessionId s))) s))))
      as H.
    cbn [completeCurrentResponse_of chatMessages setIsWaitingForResponse setIsStreaming] in H.
    rewrite (proj1 (with_current_socket_frame _ _)) in H. exact H.
Qed.

(** X9. No event other than starting a new chat ever removes a turn, moves
    one to another position or takes back text already shown: every turn
    of the transcript is still at its position afterwards, with its old
    text as a prefix of the new one. *)
Theorem transcript_only_grows (c : Component) (env : Env) (s : State) (e : Event) :
  is_new_session e = false ->
  grows (chatMessages s) (chatMessages (step_of c env s e)).
Proof.
  intros He. destruct e; try discriminate He.
  - destruct c; cbn [step_of ChatComponent.step Chat.step];
      unfold ChatComponent.connect, Chat.connect;
      destruct (current_readyState_is OPEN s); apply grows_refl.
  - destruct c; cbn [step_of ChatComponent.step Chat.step];
      unfold ChatComponent.disconnect, Chat.disconnect, with_current_socket;
      destruct (wsRef s); apply grows_refl.
  - destruct c; apply grows_refl.
  - destruct c; cbn [step_of ChatComponent.step Chat.step];
      unfold ChatComponent.sendQuery, Chat.sendQuery;
      (destruct (_ || _)%bool; [apply grows_refl|]); cbv zeta; cbn [chatMessages setQuery];
      rewrite (proj1 (with_current_socket_frame _ _)); apply grows_push.
  - destruct c; cbn [step_of ChatComponent.step Chat.step];
      (destruct (suggestions_shown s); [|apply grows_refl]);
      unfold ChatComponent.suggestion_onClick, Chat.suggestion_onClick;
      (destruct (_ || _)%bool; [apply grows_refl|]); cbv zeta;
      (destruct (current_readyState_is OPEN _); [|apply grows_refl]);
      cbn [chatMessages setQuery];
      rewrite (proj1 (with_current_socket_frame _ _)); apply grows_push.
  - destruct c; cbn [step_of ChatComponent.step Chat.step];
      (destruct (cancel_enabled s); [|apply grows_refl]);
      [apply (grows_cancelRequest ChatComponent_tsx) | apply (grows_cancelRequest Chat_tsx)].
  - destruct c; cbn [step_of ChatComponent.step Chat.step];
      (destruct (socket_in CONNECTING i s); [|apply grows_refl]); apply grows_push.
  - destruct c; cbn [step_of ChatComponent.step Chat.step];
      (destruct (socket_in OPEN i s); [|apply grows_refl]);
      [apply (grows_onmessage ChatComponent_tsx) | apply (grows_onmessage Chat_tsx)].
  - destruct c; cbn [step_of ChatComponent.step Chat.step];
      (destruct (socket_live i s); [|apply grows_refl]); apply grows_push.
  - destruct c; cbn [step_of ChatComponent.step Chat.step];
      (destruct (socket_live i s); [|apply grows_refl]); apply grows_push.
  - destruct c; cbn [step_of ChatComponent.step Chat.step];
      (destruct (timers s) as [|n]; [apply grows_refl|]);
      unfold ChatComponent.reconnect, Chat.reconnect, ChatComponent.connect, Chat.connect;
      cbn [wsRef set_timers];
      repeat match goal with
             | |- context [if ?b then _ else _] => destruct b
             | |- context [match wsRef s with Some _ => _ | None => _ end] => destruct (wsRef s)
             end;
      apply grows_refl.
Qed.

Lemma transcript_only_grows_witness :
  let s := run_of Chat_tsx secure_page "session-1" first_fragment in
  grows (chatMessages s)
        (chatMessages (step_of Chat_tsx secure_page s (SocketMessage 0 (chunk_frame "llo")))).
Proof. cbv zeta. apply transcript_only_grows. reflexivity. Defined.

(** ** Bubbles *)

Lemma number_to_string_inj n n' :
  number_to_string n = number_to_string n' -> n = n'.
Proof.
  unfold number_to_string. intros H.
  apply DecimalNat.Unsigned.to_uint_inj.
  apply (f_equal NilEmpty.uint_of_string) in H.
  rewrite !NilEmpty.usu in H. now injection H.
Qed.

Lemma bubble_id_inj r n r' n' : bubble_id r n = bubble_id r' n' -> n = n'.
Proof.
  destruct r, r'; unfold bubble_id; intros H; try discriminate H.
  - apply number_to_string_inj. now apply (String.app_inj "user-").
  - apply number_to_string_inj. now apply (String.app_inj "assistant-").
Qed.

Lemma convert_from_shown n l :
  convert_from n l =
  imap (fun k '(r, t) => Ui.mk (bubble_id r (n + k)) r t) (omap shown_as l).
Proof.
  revert n. induction l as [|m l IH]; intros n; [reflexivity|].
  cbn [convert_from omap list_omap]. unfold shown_as at 1.
  destruct (type m); cbn [imap]; rewrite ?Nat.add_0_r, IH; try reflexivity;
    f_equal; apply imap_ext; intros k [r t] _; cbn [compose];
    now replace (S n + k) with (n + S k) by lia.
Qed.

(** X10. The bubbles are exactly the user and assistant turns of the
    transcript, in transcript order and with their text unchanged; system
    and error turns are never shown.  The [k]-th bubble (from 0) gets the
    id [user-k] or [assistant-k] according to its role. *)
Theorem bubbles_are_shown_turns (l : list InternalMessage) :
  convert l = imap (fun k '(r, t) => Ui.mk (bubble_id r k) r t) (omap shown_as l)
  /\ length (convert l) = length (List.filter displayed l).
Proof.
  split.
  - unfold convert. now rewrite convert_from_shown.
  - unfold convert. rewrite convert_from_shown, length_imap.
    induction l as [|m l IH]; [reflexivity|].
    cbn [omap list_omap List.filter]. unfold shown_as at 1, displayed at 1.
    destruct (type m); cbn [length]; now rewrite IH.
Qed.

Lemma convert_from_ids n l b :
  In b (convert_from n l) -> exists r k, n <= k /\ Ui.id b = bubble_id r k.
Proof.
  revert n. induction l as [|m l IH]; intros n Hin; [destruct Hin|].
  cbn [convert_from] in Hin.
  destruct (type m); try destruct Hin as [<- | Hin];
    try (eexists _, n; split; [lia | reflexivity]);
    try (destruct (IH _ Hin) as (r & k & Hk & E); exists r, k; split; [lia | exact E]).
Qed.

Lemma convert_from_NoDup n l : NoDup (Ui.id <$> convert_from n l).
Proof.
  revert n. induction l as [|m l IH]; intros n; [constructor|].
  assert (Hfresh : forall r, bubble_id r n ∉ (Ui.id <$> convert_from (S n) l)).
  { intros r Hin. apply list_elem_of_fmap in Hin as (b & E & Hb).
    apply list_elem_of_In in Hb. destruct (convert_from_ids _ _ _ Hb) as (r' & k & Hk & E').
    rewrite E' in E. apply bubble_id_inj in E. lia. }
  cbn [convert_from]. destruct (type m); cbn [fmap list_fmap Ui.id];
    try apply IH; (constructor; [apply Hfresh | apply IH]).
Qed.

(** X11. No two bubbles of a transcript share an id, so the keys of the
    rendered list and the "Copied!" markers, which are kept by id, never
    confuse two bubbles of the same transcript. *)
Theorem bubble_ids_distinct (l : list InternalMessage) : NoDup (Ui.id <$> convert l).
Proof. apply convert_from_NoDup. Qed.

Lemma convert_from_app n l l' :
  convert_from n (l ++ l') =
  convert_from n l ++ convert_from (n + length (convert_from n l)) l'.
Proof.
  revert n. induction l as [|m l IH]; intros n; cbn [app convert_from length].
  - now rewrite Nat.add_0_r.
  - destruct (type m); cbn [app length]; rewrite IH; try reflexivity;
      f_equal; f_equal; f_equal; lia.
Qed.

Lemma convert_from_retyped n (l l' : list InternalMessage) :
  (type <$> l) = (type <$> l') ->
  (Ui.id <$> convert_from n l) = (Ui.id <$> convert_from n l').
Proof.
  revert n l'. induction l as [|m l IH]; intros n [|m' l'] H; try discriminate H;
    [reflexivity|].
  cbn [fmap list_fmap] in H. injection H as Ht Hl.
  cbn [convert_from]. rewrite <- Ht.
  destruct (type m); cbn [fmap list_fmap Ui.id]; rewrite ?(IH _ l' Hl); reflexivity.
Qed.

(** X12. Streaming never renumbers the bubbles: after a chunk frame the
    ids of the bubbles shown before are the first ids of the bubbles
    shown now, whether the chunk extended a turn or started one.  A
    "Copied!" marker therefore stays on its bubble while text arrives. *)
Theorem chunk_keeps_bubble_ids (c : Component) (data : InboundFrame) (s : State) :
  is_chunk data ->
  (Ui.id <$> convert (chatMessages s))
    `prefix_of` (Ui.id <$> convert (chatMessages (onmessage_of c data s))).
Proof.
  intros Hd. rewrite onmessage_chunk by exact Hd. unfold convert.
  destruct (current_turn s) as [m|] eqn:E.
  - pose proof (current_turn_Some s m E) as [_ Hl].
    assert (Hsame : forall t,
              (Ui.id <$> convert_from 0 (chatMessages s))
              = (Ui.id <$> convert_from 0
                   (<[Z.to_nat (currentResponseIndexRef s) :=
                        mkMessage (type m) t (isComplete m)]> (chatMessages s)))).
    { intros t. apply convert_from_retyped. rewrite list_fmap_insert. cbn [type].
      symmetry. apply list_insert_id. now rewrite list_lookup_fmap, Hl. }
    destruct c; [rewrite (ChatComponent_append_current s m _ E)
                | rewrite (Chat_append_current s m _ E)];
      cbn [chatMessages setChatMessages]; rewrite <- Hsame; reflexivity.
  - destruct c; [rewrite (ChatComponent_append_fresh s _ E)
                | rewrite (Chat_append_fresh s _ E)];
      cbn [chatMessages setChatMessages]; rewrite convert_from_app, fmap_app;
      apply prefix_app_r; reflexivity.
Qed.

Lemma chunk_keeps_bubble_ids_witness :
  let s := run_of Chat_tsx secure_page "session-1" first_fragment in
  (Ui.id <$> convert (chatMessages s)) = ["user-0"; "assistant-1"]
  /\ (Ui.id <$> convert (chatMessages s))
       `prefix_of` (Ui.id <$> convert
                      (chatMessages (onmessage_of Chat_tsx (chunk_frame "llo") s))).
Proof.
  cbv zeta. split; [reflexivity|]. apply chunk_keeps_bubble_ids. reflexivity.
Defined.

(** * The document table *)

(** ** Sorting *)

Lemma sort_insert_perm {A} (f : A -> A -> Z) x l : sort_insert f x l ≡ₚ x :: l.
Proof.
  induction l as [|y l IH]; cbn [sort_insert]; [reflexivity|].
  destruct (0 <? f x y)%Z; [|reflexivity].
  rewrite IH. apply Permutation_swap.
Qed.

Lemma sort_perm {A} (f : A -> A -> Z) l : sort f l ≡ₚ l.
Proof.
  induction l as [|x l IH]; [reflexivity|].
  unfold sort. cbn [foldr]. fold (sort f l). rewrite sort_insert_perm. now constructor.
Qed.

Section Sorted.

Context {A : Type} (f : A -> A -> Z) (R : A -> A -> Prop).
Hypothesis stays : forall x y, (0 <? f x y)%Z = false -> R x y.
Hypothesis moves : forall x y, (0 <? f x y)%Z = true -> R y x.
Hypothesis R_trans : forall x y z, R x y -> R y z -> R x z.

Lemma sort_insert_sorted x l :
  StronglySorted R l -> StronglySorted R (sort_insert f x l).
Proof.
  induction l as [|y l IH]; intros Hs; cbn [sort_insert].
  - repeat constructor.
  - inversion Hs as [|? ? Hl Hy]; subst.
    destruct (0 <? f x y)%Z eqn:E.
    + constructor; [now apply IH|].
      rewrite Forall_forall. intros z Hz.
      rewrite sort_insert_perm in Hz. apply elem_of_cons in Hz as [-> | Hz];
        [now apply moves|].
      rewrite Forall_forall in Hy. now apply Hy.
    + constructor; [exact Hs|]. constructor; [now apply stays|].
      rewrite Forall_forall in Hy |- *. intros z Hz.
      apply (R_trans x y z); [now apply stays | now apply Hy].
Qed.

Lemma sort_sorted l : StronglySorted R (sort f l).
Proof.
  induction l as [|x l IH]; [constructor|].
  unfold sort. cbn [foldr]. now apply sort_insert_sorted.
Qed.

End Sorted.

Lemma sort_constant {A} (l : list A) : sort (fun _ _ => 0%Z) l = l.
Proof.
  induction l as [|x l IH]; [reflexivity|].
  unfold sort in *. cbn [foldr]. rewrite IH. now destruct l.
Qed.

(** The order of [<] on strings. *)
Lemma ascii_compare_lt_trans x y z :
  Ascii.compare x y = Lt -> Ascii.compare y z = Lt -> Ascii.compare x z = Lt.
Proof.
  unfold Ascii.compare. rewrite !N.compare_lt_iff. apply N.lt_trans.
Qed.

Lemma string_not_greater_trans a b c :
  String.compare a b <> Gt -> String.compare b c <> Gt -> String.compare a c <> Gt.
Proof.
  revert b c. induction a as [|x a IH]; intros [|y b] [|z c]; cbn [String.compare];
    try congruence.
  destruct (Ascii.compare x y) eqn:Exy; [| |congruence].
  - apply Ascii.compare_eq_iff in Exy. subst y.
    destruct (Ascii.compare x z); [apply IH | congruence | congruence].
  - destruct (Ascii.compare y z) eqn:Eyz; [| |congruence].
    + apply Ascii.compare_eq_iff in Eyz. subst z. rewrite Exy. congruence.
    + rewrite (ascii_compare_lt_trans x y z Exy Eyz). congruence.
Qed.

Lemma ltb_false_iff a b : String.ltb a b = false <-> String.compare b a <> Gt.
Proof.
  unfold String.ltb. rewrite (String.compare_antisym b a).
  destruct (String.compare a b); cbn; split; congruence.
Qed.

Lemma ltb_asym a b : String.ltb a b = true -> String.ltb b a = false.
Proof.
  unfold String.ltb. rewrite (String.compare_antisym b a).
  destruct (String.compare a b); cbn; congruence.
Qed.

Lemma less_asym a b : Docs.less a b = true -> Docs.less b a = false.
Proof.
  destruct a, b; cbn; try congruence; [apply ltb_asym|].
  intros H. apply Z.ltb_lt in H. apply Z.ltb_ge. lia.
Qed.

Lemma not_after_trans f (a b c : Docs.Document) :
  not_after_key (Docs.key (Docs.get f a)) (Docs.key (Docs.get f b)) ->
  not_after_key (Docs.key (Docs.get f b)) (Docs.key (Docs.get f c)) ->
  not_after_key (Docs.key (Docs.get f a)) (Docs.key (Docs.get f c)).
Proof.
  unfold not_after_key.
  destruct f; cbn [Docs.get Docs.key Docs.less];
    try (rewrite !ltb_false_iff; apply string_not_greater_trans);
    rewrite !Z.ltb_ge; lia.
Qed.

Lemma compareFn_stays f o a b :
  (0 <? Docs.compareFn (Some f) o a b)%Z = false ->
  match o with
  | Docs.asc => not_after_key (Docs.key (Docs.get f a)) (Docs.key (Docs.get f b))
  | Docs.desc => not_after_key (Docs.key (Docs.get f b)) (Docs.key (Docs.get f a))
  end.
Proof.
  unfold Docs.compareFn, not_after_key. cbv zeta.
  destruct (Docs.less (Docs.key (Docs.get f a)) (Docs.key (Docs.get f b))) eqn:Eab;
    destruct (Docs.less (Docs.key (Docs.get f b)) (Docs.key (Docs.get f a))) eqn:Eba;
    destruct o; cbn; try congruence;
    apply less_asym in Eab; congruence.
Qed.

Lemma compareFn_moves f o a b :
  (0 <? Docs.compareFn (Some f) o a b)%Z = true ->
  match o with
  | Docs.asc => not_after_key (Docs.key (Docs.get f b)) (Docs.key (Docs.get f a))
  | Docs.desc => not_after_key (Docs.key (Docs.get f a)) (Docs.key (Docs.get f b))
  end.
Proof.
  unfold Docs.compareFn, not_after_key. cbv zeta.
  destruct (Docs.less (Docs.key (Docs.get f a)) (Docs.key (Docs.get f b))) eqn:Eab;
    destruct (Docs.less (Docs.key (Docs.get f b)) (Docs.key (Docs.get f a))) eqn:Eba;
    destruct o; cbn; try congruence;
    apply less_asym in Eab; congruence.
Qed.

(** X13. [sortedDocuments] holds every document of the list exactly once.
    With no sort column it is the list itself; with a column it is in the
    order of that column's values, rising for [asc] and falling for
    [desc]: no document comes after one that is strictly greater
    (smaller) than it.  Text is compared without regard to case, sizes as
    numbers, topic lists by their joined text. *)
Theorem sortedDocuments_sorted (t : Docs.Table) :
  Docs.sortedDocuments t ≡ₚ Docs.documents t
  /\ match Docs.sortField t with
     | None => Docs.sortedDocuments t = Docs.documents t
     | Some f =>
         StronglySorted
           (fun a b =>
              match Docs.sortOrder t with
              | Docs.asc => not_after_key (Docs.key (Docs.get f a)) (Docs.key (Docs.get f b))
              | Docs.desc => not_after_key (Docs.key (Docs.get f b)) (Docs.key (Docs.get f a))
              end)
           (Docs.sortedDocuments t)
     end.
Proof.
  split; [apply sort_perm|].
  unfold Docs.sortedDocuments. destruct (Docs.sortField t) as [f|].
  - apply sort_sorted.
    + intros x y. apply compareFn_stays.
    + intros x y H. apply compareFn_moves in H. now destruct (Docs.sortOrder t).
    + intros x y z. destruct (Docs.sortOrder t); intros H1 H2.
      * now apply (not_after_trans f x y z).
      * now apply (not_after_trans f z y x).
  - apply (sort_constant (Docs.documents t)).
Qed.

Lemma field_eqb_eq a b : Docs.field_eqb a b = true <-> a = b.
Proof. destruct a, b; cbn; split; congruence. Qed.

(** X14. A click on a column header makes that column the sort column
    and touches nothing else but the order: the first click on a column
    that was not active sorts rising, every further click on it flips the
    order, so that two further clicks bring the table back. *)
Theorem handleSort_cycle (f : Docs.Field) (t : Docs.Table) :
  let t1 := Docs.handleSort f t in
  Docs.sortField t1 = Some f
  /\ (Docs.sortField t <> Some f -> Docs.sortOrder t1 = Docs.asc)
  /\ Docs.sortOrder (Docs.handleSort f t1) <> Docs.sortOrder t1
  /\ Docs.handleSort f (Docs.handleSort f t1) = t1
  /\ Docs.documents t1 = Docs.documents t
  /\ Docs.selectedDocuments t1 = Docs.selectedDocuments t
  /\ Docs.sortedDocuments t1 ≡ₚ Docs.sortedDocuments t.
Proof.
  cbv zeta.
  assert (H1 : Docs.sortField (Docs.handleSort f t) = Some f).
  { unfold Docs.handleSort. destruct (Docs.sortField t) as [g|] eqn:E; [|reflexivity].
    destruct (Docs.field_eqb g f) eqn:Eg; [|reflexivity].
    apply field_eqb_eq in Eg. cbn. congruence. }
  assert (Hflip : forall u, Docs.sortField u = Some f ->
            Docs.handleSort f u =
            Docs.mkTable (Docs.documents u) (Docs.uploadingDocuments u)
              (Docs.isLoadingDocuments u) (Docs.documentsError u) (Docs.isUploading u)
              (Docs.uploadError u) (Docs.selectedDocuments u) (Some f)
              (match Docs.sortOrder u with Docs.asc => Docs.desc | Docs.desc => Docs.asc end)).
  { intros u Hu. unfold Docs.handleSort. rewrite Hu.
    now rewrite (proj2 (field_eqb_eq f f) eq_refl). }
  repeat apply conj.
  - exact H1.
  - intros Hne. unfold Docs.handleSort. destruct (Docs.sortField t) as [g|]; [|reflexivity].
    destruct (Docs.field_eqb g f) eqn:Eg; [|reflexivity].
    apply field_eqb_eq in Eg. congruence.
  - rewrite (Hflip _ H1). cbn. now destruct (Docs.sortOrder _).
  - rewrite (Hflip _ H1), Hflip by reflexivity. cbn.
    destruct (Docs.handleSort f t) as [d u l e b ue sel sf so]. cbn in *. subst sf.
    now destruct so.
  - unfold Docs.handleSort.
    destruct (Docs.sortField t) as [g|]; [destruct (Docs.field_eqb g f)|]; reflexivity.
  - unfold Docs.handleSort.
    destruct (Docs.sortField t) as [g|]; [destruct (Docs.field_eqb g f)|]; reflexivity.
  - assert (Hd : Docs.documents (Docs.handleSort f t) = Docs.documents t)
      by (unfold Docs.handleSort;
          destruct (Docs.sortField t) as [g|]; [destruct (Docs.field_eqb g f)|]; reflexivity).
    unfold Docs.sortedDocuments. now rewrite !sort_perm, Hd.
Qed.

(** X15. Ticking a document's checkbox flips that document in the
    selection and no other; the count shown as "N selected" moves by
    exactly one; ticking twice restores the selection. *)
Theorem toggleDocumentSelection_flips (documentId : string) (t : Docs.Table) :
  let sel := Docs.selectedDocuments t in
  let sel' := Docs.selectedDocuments (Docs.toggleDocumentSelection documentId t) in
  (documentId ∈ sel' <-> documentId ∉ sel)
  /\ (forall other, other <> documentId -> other ∈ sel' <-> other ∈ sel)
  /\ size sel' = (if bool_decide (documentId ∈ sel) then size sel - 1 else size sel + 1)
  /\ Docs.selectedDocuments
       (Docs.toggleDocumentSelection documentId (Docs.toggleDocumentSelection documentId t))
     = sel.
Proof.
  cbv zeta. unfold Docs.toggleDocumentSelection. cbn [Docs.selectedDocuments].
  assert (Hin : forall x (X : gset string),
            x ∈ (if bool_decide (documentId ∈ X) then X ∖ {[documentId]}
                 else X ∪ {[documentId]})
            <-> (x ∈ X /\ x <> documentId) \/ (x = documentId /\ documentId ∉ X)).
  { intros x X. case_bool_decide as H.
    - rewrite elem_of_difference, elem_of_singleton. intuition congruence.
    - rewrite elem_of_union, elem_of_singleton.
      destruct (decide (x = documentId)) as [->|]; intuition congruence. }
  split; [|split; [|split]].
  - rewrite Hin. intuition congruence.
  - intros other Hne. rewrite Hin. intuition congruence.
  - case_bool_decide as H.
    + rewrite size_difference by (now apply singleton_subseteq_l).
      now rewrite size_singleton.
    + rewrite size_union by (now apply disjoint_singleton_r).
      now rewrite size_singleton.
  - apply set_eq. intros x. rewrite !Hin.
    destruct (decide (documentId ∈ Docs.selectedDocuments t));
      destruct (decide (x = documentId)) as [->|]; intuition congruence.
Qed.

(** ** Rows *)

Lemma Forall2_of_lengths {A B} (P : A -> B -> Prop) (l1 : list A) (l2 : list B) :
  length l1 = length l2 ->
  (forall x y, x ∈ l1 -> y ∈ l2 -> P x y) ->
  Forall2 P l1 l2.
Proof.
  revert l2. induction l1 as [|x l1 IH]; intros [|y l2] Hlen H; try discriminate Hlen;
    constructor.
  - apply H; apply elem_of_cons; now left.
  - apply IH; [now injection Hlen|]. intros a b Ha Hb.
    apply H; apply elem_of_cons; now right.
Qed.

(** X16. The fixed row-number column and every data column of the table
    have their rows side by side, in every state of the table: as many
    rows, an arrow beside each upload placeholder, a number beside each
    loading placeholder and each document, "!" beside the error row and
    "-" beside the "no documents" row.  This holds with and without a
    sort column, and the table never has zero rows. *)
Theorem table_rows_aligned (t : Docs.Table) :
  Forall2 (fun r n => row_matches r n = true)
          (Docs.renderColumnContent true t) (Docs.rowNumbers t)
  /\ Docs.renderColumnContent true t <> [].
Proof.
  unfold Docs.renderColumnContent, Docs.rowNumbers. split.
  - apply Forall2_app.
    + apply Forall2_fmap, Forall_Forall2_diag, Forall_forall. reflexivity.
    + destruct (Docs.isLoadingDocuments t).
      { apply Forall2_fmap, Forall_Forall2_diag, Forall_forall. reflexivity. }
      destruct (Js.truthy_opt (Docs.documentsError t)); [repeat constructor|].
      destruct (0 <? length (Docs.documents t))%nat.
      * apply Forall2_of_lengths.
        -- rewrite length_fmap, length_imap.
           destruct (Docs.sortField t); [|reflexivity].
           unfold Docs.sortedDocuments. apply Permutation_length, sort_perm.
        -- intros x y Hx Hy. apply list_elem_of_fmap in Hx as (d & -> & _).
           apply list_elem_of_lookup in Hy as (i & Hi).
           rewrite list_lookup_imap in Hi.
           destruct (Docs.documents t !! i); [|discriminate Hi]. now injection Hi as <-.
      * destruct (length (Docs.uploadingDocuments t) =? 0)%nat; repeat constructor.
  - destruct (Docs.uploadingDocuments t) as [|u us] eqn:Eu; [|discriminate].
    cbn [fmap list_fmap app length Nat.eqb].
    destruct (Docs.isLoadingDocuments t); [discriminate|].
    destruct (Js.truthy_opt (Docs.documentsError t)); [discriminate|].
    destruct (Docs.documents t) as [|d ds] eqn:Ed; [discriminate|].
    cbn [length Nat.ltb Nat.leb].
    intros H. apply (f_equal length) in H. rewrite length_fmap in H.
    destruct (Docs.sortField t).
    + unfold Docs.sortedDocuments in H.
      rewrite (Permutation_length (sort_perm _ _)), Ed in H. discriminate H.
    + discriminate H.
Qed.

(** ** Upload placeholders *)

Lemma without_fresh ids l :
  Forall (fun d => Docs.uid d ∉ ids) l -> Docs.without ids l = l.
Proof.
  induction 1 as [|d l Hd _ IH]; [reflexivity|].
  unfold Docs.without in *. cbn [List.filter].
  assert (existsb (String.eqb (Docs.uid d)) ids = false) as ->.
  { apply not_true_iff_false. intros H. apply existsb_exists in H as (x & Hx & E).
    apply String.eqb_eq in E. subst x. apply Hd. now apply list_elem_of_In. }
  cbn [negb]. now rewrite IH.
Qed.

Lemma without_own ids l :
  Forall (fun d => Docs.uid d ∈ ids) l -> Docs.without ids l = [].
Proof.
  induction 1 as [|d l Hd _ IH]; [reflexivity|].
  unfold Docs.without in *. cbn [List.filter].
  assert (existsb (String.eqb (Docs.uid d)) ids = true) as ->.
  { apply existsb_exists. exists (Docs.uid d). split; [now apply list_elem_of_In|].
    apply String.eqb_refl. }
  cbn [negb]. exact IH.
Qed.

(** X17. When an upload settles, by success or by failure, exactly its
    own placeholder rows leave the list: the rows that were there before
    it started and the rows other uploads have added since stay, in
    order, provided their ids differ from the ids drawn for this upload.
    An upload of no files changes nothing. *)
Theorem upload_removes_own_placeholders
        (files : list (Docs.File * string)) (t t' : Docs.Table)
        (later : list Docs.UploadingDocument) (failedCount : nat) (message : string) :
  files <> [] ->
  Docs.uploadingDocuments t' = Docs.uploadingDocuments (Docs.upload_started files t) ++ later ->
  Forall (fun d => Docs.uid d ∉ (Docs.uid <$> Docs.skeletonDocs files))
         (Docs.uploadingDocuments t ++ later) ->
  Docs.uploadingDocuments (Docs.upload_succeeded files failedCount t')
    = Docs.uploadingDocuments t ++ later
  /\ Docs.uploadingDocuments (Docs.upload_failed files message t')
     = Docs.uploadingDocuments t ++ later
  /\ Docs.upload_started [] t = t.
Proof.
  intros Hne Ht' Hfresh.
  assert (Hrem : Docs.without (Docs.uid <$> Docs.skeletonDocs files)
                   (Docs.uploadingDocuments t')
                 = Docs.uploadingDocuments t ++ later).
  { rewrite Ht'. unfold Docs.upload_started. destruct files as [|f fs]; [contradiction|].
    cbn [Docs.uploadingDocuments Docs.set_uploading].
    apply Forall_app in Hfresh as [Hprev Hlater].
    unfold Docs.without. rewrite !List.filter_app.
    fold (Docs.without (Docs.uid <$> Docs.skeletonDocs (f :: fs)) (Docs.uploadingDocuments t)).
    fold (Docs.without (Docs.uid <$> Docs.skeletonDocs (f :: fs)) later).
    fold (Docs.without (Docs.uid <$> Docs.skeletonDocs (f :: fs))
            (Docs.skeletonDocs (f :: fs))).
    rewrite (without_fresh _ _ Hprev), (without_fresh _ _ Hlater), without_own;
      [now rewrite app_nil_r|].
    apply Forall_forall. intros d Hd. now apply list_elem_of_fmap_2. }
  split; [exact Hrem | split; [exact Hrem | reflexivity]].
Qed.

Lemma upload_removes_own_placeholders_witness :
  let files := [(Docs.mkFile "a.pdf" 10, "uploading-1"); (Docs.mkFile "b.pdf" 20, "uploading-2")] in
  let t := Docs.mkTable [] [Docs.mkUploading "uploading-0" "z.pdf" 5] false None true None ∅
             None Docs.asc in
  let later := [Docs.mkUploading "uploading-3" "c.pdf" 30] in
  let t' := Docs.set_uploading
              (Docs.uploadingDocuments (Docs.upload_started files t) ++ later) true None t in
  Docs.uploadingDocuments (Docs.upload_failed files "Upload failed: 500" t')
  = [Docs.mkUploading "uploading-0" "z.pdf" 5; Docs.mkUploading "uploading-3" "c.pdf" 30].
Proof.
  intros files t later t'.
  destruct (upload_removes_own_placeholders files t t' later 0 "Upload failed: 500")
    as (_ & Hf & _).
  - discriminate.
  - reflexivity.
  - repeat constructor; cbn; intros H;
      repeat (apply elem_of_cons in H as [H|H]; [discriminate H|]);
      now apply elem_of_nil in H.
  - exact Hf.
Defined.

(** * The history sidebar *)

Lemma lower_char_idem c : lower_char (lower_char c) = lower_char c.
Proof. destruct c as [[] [] [] [] [] [] [] []]; reflexivity. Qed.

Lemma toLowerCase_idem s : toLowerCase (toLowerCase s) = toLowerCase s.
Proof.
  induction s as [|c s IH]; [reflexivity|].
  cbn [toLowerCase]. now rewrite lower_char_idem, IH.
Qed.

Lemma toLowerCase_app a b : toLowerCase (a +:+ b) = toLowerCase a +:+ toLowerCase b.
Proof.
  induction a as [|c a IH]; [reflexivity|].
  change (String c a +:+ b) with (String c (a +:+ b)). cbn [toLowerCase].
  rewrite IH. reflexivity.
Qed.

Lemma prefix_nil s : String.prefix "" s = true.
Proof. now destruct s. Qed.

Lemma prefix_app a b s : String.prefix (a +:+ b) s = true -> String.prefix a s = true.
Proof.
  revert s. induction a as [|c a IH]; intros s H; [apply prefix_nil|].
  change (String c a +:+ b) with (String c (a +:+ b)) in H.
  destruct s as [|d s]; [discriminate H|]. cbn [String.prefix] in *.
  destruct (ascii_dec c d); [now apply IH | discriminate H].
Qed.

Lemma includes_app s a b : includes s (a +:+ b) = true -> includes s a = true.
Proof.
  induction s as [|d s IH]; cbn [includes]; intros H.
  - destruct (String.prefix (a +:+ b) "") eqn:E; [|discriminate H].
    now rewrite (prefix_app a b "" E).
  - destruct (String.prefix (a +:+ b) (String d s)) eqn:E.
    + now rewrite (prefix_app a b _ E).
    + destruct (String.prefix a (String d s)); [reflexivity | now apply IH].
Qed.

Lemma filter_sublist {A} (P : A -> bool) l : sublist (List.filter P l) l.
Proof.
  induction l as [|x l IH]; [constructor|].
  cbn [List.filter]. destruct (P x); now constructor.
Qed.

Lemma filter_narrow {A} (P Q : A -> bool) l :
  (forall x, P x = true -> Q x = true) ->
  sublist (List.filter P l) (List.filter Q l).
Proof.
  intros H. induction l as [|x l IH]; [constructor|].
  cbn [List.filter]. destruct (P x) eqn:Px.
  - rewrite (H x Px). now constructor.
  - destruct (Q x); [now constructor | exact IH].
Qed.

(** X18. The search box of the chat history: with an empty search the
    whole history is listed; otherwise the list is a selection of the
    history in its own order; the search does not depend on the case of
    what is typed; and typing further characters never brings back a
    conversation that the shorter search had dropped. *)
Theorem filteredChatHistory_narrows (q r : string) (h : list Sidebar.ChatSession) :
  Sidebar.filteredChatHistory "" h = h
  /\ sublist (Sidebar.filteredChatHistory q h) h
  /\ Sidebar.filteredChatHistory (toLowerCase q) h = Sidebar.filteredChatHistory q h
  /\ sublist (Sidebar.filteredChatHistory (q +:+ r) h) (Sidebar.filteredChatHistory q h).
Proof.
  assert (Htruthy : forall x, Js.truthy (toLowerCase x) = Js.truthy x)
    by (intros [|c x]; reflexivity).
  split; [reflexivity|]. split; [|split].
  - unfold Sidebar.filteredChatHistory. destruct (Js.truthy q); [apply filter_sublist|].
    reflexivity.
  - unfold Sidebar.filteredChatHistory. now rewrite Htruthy, toLowerCase_idem.
  - unfold Sidebar.filteredChatHistory.
    destruct (Js.truthy (q +:+ r)) eqn:Eqr.
    + destruct (Js.truthy q); [|apply filter_sublist].
      apply filter_narrow. intros chat H. rewrite toLowerCase_app in H.
      apply orb_true_iff in H as [H | H]; apply includes_app in H; rewrite H;
        [reflexivity | apply orb_true_r].
    + destruct q; [reflexivity | discriminate Eqr].
Qed.

(** * Blank queries and the end of a response *)

Lemma trimStart_blank s : blank s = true -> Js.trimStart s = "".
Proof.
  induction s as [|c s IH]; [reflexivity|]. cbn [blank Js.trimStart].
  intros H. apply andb_true_iff in H as [-> H]. now apply IH.
Qed.

Lemma trimStart_head s :
  Js.trimStart s = "" /\ blank s = true
  \/ exists c r, Js.trimStart s = String c r /\ Js.isWhiteSpace c = false.
Proof.
  induction s as [|c s IH]; [left; split; reflexivity|].
  cbn [Js.trimStart blank]. destruct (Js.isWhiteSpace c) eqn:E.
  - destruct IH as [[H1 H2] | H]; [left; now rewrite H1, H2 | right; exact H].
  - right. now exists c, s.
Qed.

Lemma trimEnd_head c r : Js.isWhiteSpace c = false -> Js.trimEnd (String c r) <> "".
Proof.
  intros H. cbn [Js.trimEnd]. rewrite H. now destruct (Js.trimEnd r).
Qed.

Lemma trim_blank s : Js.trim s = "" <-> blank s = true.
Proof.
  unfold Js.trim. split.
  - intros H. destruct (trimStart_head s) as [[_ Hb] | (c & r & E & Hc)]; [exact Hb|].
    rewrite E in H. now apply trimEnd_head in H.
  - intros H. now rewrite (trimStart_blank s H).
Qed.

(** X19. With the socket open, [sendQuery] leaves the session untouched
    exactly for the queries that consist of white space only (tab, line
    feed, vertical tab, form feed, carriage return, space, no-break
    space), the empty query included; any other query is sent. *)
Theorem sendQuery_noop_iff_blank (c : Component) (s : State) (i : nat) (w : WebSocket) :
  wsRef s = Some i -> sockets s !! i = Some w -> readyState w = OPEN ->
  sendQuery_of c s = s <-> blank (query s) = true.
Proof.
  intros Hr Hl Ho. rewrite <- trim_blank. split.
  - intros Hs. destruct (String.eqb_spec (Js.trim (query s)) "") as [E|Hne]; [exact E|].
    rewrite (sendQuery_on_open c s i w Hne Hr Hl Ho) in Hs.
    apply (f_equal chatMessages) in Hs. cbn [chatMessages] in Hs.
    apply (f_equal length) in Hs. rewrite length_app in Hs. cbn [length] in Hs. lia.
  - intros E.
    destruct c; cbn [sendQuery_of]; unfold ChatComponent.sendQuery, Chat.sendQuery;
      now rewrite E.
Qed.

Lemma sendQuery_noop_iff_blank_witness :
  let s := run_of Chat_tsx secure_page "session-1" [Mount; SocketOpen 0; InputChange "A"] in
  sendQuery_of Chat_tsx s <> s.
Proof.
  cbv zeta. intros H.
  apply (sendQuery_noop_iff_blank Chat_tsx _ 0
           (mkWebSocket "wss://api.example.com/ws/query" OPEN [])) in H;
    [discriminate H | reflexivity..].
Defined.




Lemma Chat_wsUrl_secure_witness :
  Chat.wsUrl secure_page = "wss://api.example.com/ws/query"
  /\ Chat.wsUrl (mkEnv "https:" None (Some "api.example.com"))
     = "wss://api.example.com/ws/query".
Proof.
  split.
  - apply (proj2 (Chat_wsUrl_secure secure_page eq_refl) "api.example.com/ws/query").
    reflexivity.
  - apply (proj1 (Chat_wsUrl_secure (mkEnv "https:" None (Some "api.example.com")) eq_refl)).
    reflexivity.
Defined.
